(** * Pi Home Server: SMS-controlled door opener

    A shallow embedding of [config.py], [main.py], [auth.py] and [door.py].

    Modelling conventions.
    - Python [str] values are [string]s, one character per code point; the
      built-in methods ([strip], [lower], [isdigit], ...) are given for
      code points below 256, which is what an [ascii] can hold.
    - A Python call that may raise returns an [outcome]; the functions that
      read or change module-level state run in the monad [M], which threads
      a [World] and lets an exception escape with the state reached so far.
    - Playwright, Twilio's TwiML renderer, the [json] module and the clock
      are outside the repository: they form the interface [External], and
      every definition and theorem is generic in it.
    - [datetime] values are integers, in microseconds.
    - [logger] calls and [print] are left out.  Reading, writing and
      changing the mode of a file succeed unless the file is missing.
    - The world carries a ghost trace, [log]: the entry of each function
      the properties speak about, and every call into Playwright or the
      file system. *)

From Stdlib Require Import ZArith NArith String Ascii DecimalString List Bool Lia.
From stdpp Require Import gmap strings list.
Import ListNotations.

Open Scope string_scope.
Open Scope Z_scope.

(* ===================================================================== *)
(** ** Python strings *)
(* ===================================================================== *)

Module PyStr.

(** [str.isspace] on one character (code points below 256). *)
Definition isspace_char (c : ascii) : bool :=
  let n := N_of_ascii c in
  ((9 <=? n) && (n <=? 13) || (28 <=? n) && (n <=? 32) || (n =? 133) || (n =? 160))%N.

(** [str.isdigit] on one character: the decimal digits and the three
    superscript digits of Latin-1. *)
Definition isdigit_char (c : ascii) : bool :=
  let n := N_of_ascii c in
  ((48 <=? n) && (n <=? 57) || (n =? 178) || (n =? 179) || (n =? 185))%N.

(** [str.lower] on one character. *)
Definition lower_char (c : ascii) : ascii :=
  let n := N_of_ascii c in
  if ((65 <=? n) && (n <=? 90) || (192 <=? n) && (n <=? 222) && negb (n =? 215))%N
  then ascii_of_N (n + 32) else c.

Fixpoint lower (s : string) : string :=
  match s with
  | EmptyString => EmptyString
  | String c s' => String (lower_char c) (lower s')
  end.

Fixpoint lstrip (s : string) : string :=
  match s with
  | EmptyString => EmptyString
  | String c s' => if isspace_char c then lstrip s' else s
  end.

Fixpoint rstrip (s : string) : string :=
  match s with
  | EmptyString => EmptyString
  | String c s' =>
      match rstrip s' with
      | EmptyString => if isspace_char c then EmptyString else String c EmptyString
      | t => String c t
      end
  end.

Definition strip (s : string) : string := rstrip (lstrip s).

(** [s.lstrip(chars)] for a one-character [chars]. *)
Fixpoint lstrip_char (ch : ascii) (s : string) : string :=
  match s with
  | EmptyString => EmptyString
  | String c s' => if Ascii.eqb c ch then lstrip_char ch s' else s
  end.

(** [s.split(sep)] for a one-character separator: never the empty list. *)
Fixpoint split (sep : ascii) (s : string) : list string :=
  match s with
  | EmptyString => [EmptyString]
  | String c s' =>
      if Ascii.eqb c sep then EmptyString :: split sep s'
      else match split sep s' with
           | h :: t => String c h :: t
           | [] => [String c EmptyString]
           end
  end.

Fixpoint startswith (s p : string) : bool :=
  match p, s with
  | EmptyString, _ => true
  | String a p', String b s' => Ascii.eqb a b && startswith s' p'
  | String _ _, EmptyString => false
  end.

(** [p in s]: substring test. *)
Fixpoint contains (p s : string) : bool :=
  startswith s p ||
  match s with
  | EmptyString => false
  | String _ s' => contains p s'
  end.

(** [s[1:]] *)
Definition tail (s : string) : string :=
  match s with
  | EmptyString => EmptyString
  | String _ s' => s'
  end.

Fixpoint all_chars (f : ascii -> bool) (s : string) : bool :=
  match s with
  | EmptyString => true
  | String c s' => f c && all_chars f s'
  end.

(** [s.isdigit()]: at least one character, all of them digits. *)
Definition isdigit (s : string) : bool :=
  match s with
  | EmptyString => false
  | _ => all_chars isdigit_char s
  end.

(** [bool(s)] *)
Definition truthy (s : string) : bool :=
  match s with
  | EmptyString => false
  | _ => true
  end.

(** Digits of [int(s)]: decimal digits, single underscores allowed between
    two digits.  [acc] is the value read so far, [prev] tells whether the
    previous character was a digit. *)
Fixpoint int_digits (s : string) (acc : Z) (prev : bool) : option Z :=
  match s with
  | EmptyString => if prev then Some acc else None
  | String c s' =>
      let n := N_of_ascii c in
      if ((48 <=? n) && (n <=? 57))%N
      then int_digits s' (10 * acc + Z.of_N (n - 48)) true
      else if (Ascii.eqb c "_" && prev)%bool then int_digits s' acc false
      else None
  end.

(** [int(s)], base 10, for strings within the interpreter's limit on the
    number of digits; [None] stands for [ValueError]. *)
Definition int (s : string) : option Z :=
  match strip s with
  | String "+" t => int_digits t 0 false
  | String "-" t => option_map Z.opp (int_digits t 0 false)
  | t => int_digits t 0 false
  end.

End PyStr.

(* ===================================================================== *)
(** ** Exceptions and outcomes *)
(* ===================================================================== *)

(** What a Playwright call raises: [playwright.sync_api.TimeoutError], or
    any other [Exception]. *)
Inductive pw_exn : Type :=
| TimeoutError (msg : string)
| Error (msg : string).

(** The exceptions of the program, all of them subclasses of [Exception]:
    the two the code raises itself, the ones of the file system and of
    [json], and Playwright's. *)
Inductive exn : Type :=
| ValueError (msg : string)
| HTTPException (status_code : Z) (detail : string)
| OSError (msg : string)
| JSONDecodeError (msg : string)
| Playwright (e : pw_exn).

(** What a call into Playwright gives back. *)
Inductive reply (A : Type) : Type :=
| Ok (a : A)
| Fail (e : pw_exn).
Arguments Ok {A} a.
Arguments Fail {A} e.

Inductive outcome (A : Type) : Type :=
| Return (a : A)
| Raise (e : exn).
Arguments Return {A} a.
Arguments Raise {A} e.

Definition obind {A B} (x : outcome A) (k : A -> outcome B) : outcome B :=
  match x with
  | Return a => k a
  | Raise e => Raise e
  end.



(* ===================================================================== *)
(** ** config.py *)
(* ===================================================================== *)

Record Config : Type := mkConfig {
  twilio_account_sid : string;
  twilio_auth_token : string;
  allowed_phone_numbers : list string;
  avigilon_url : string;
  door_button_text : string;
  host : string;
  port : Z;
  cookies_file : string;
  rate_limit_max_requests : Z;
  rate_limit_window_seconds : Z
}.

(** [os.environ], as [load_dotenv()] left it. *)
Abbreviation environ := (gmap string string).

(** [os.getenv(key, default)] *)
Definition getenv (env : environ) (key default : string) : string :=
  match env !! key with
  | Some v => v
  | None => default
  end.

(** [Config._get_required]: [os.getenv(key)] is [None] or a string, and
    [not value] holds for [None] and for the empty string. *)
Definition _get_required (env : environ) (key : string) : outcome string :=
  match env !! key with
  | Some value =>
      if negb (PyStr.truthy value)
      then Raise (ValueError ("Required environment variable " ++ key ++ " is not set"))
      else Return value
  | None => Raise (ValueError ("Required environment variable " ++ key ++ " is not set"))
  end.

(** The validation loop of [_parse_phone_numbers]: the first entry that
    fails a test raises. *)
Fixpoint validate_numbers (numbers : list string) : outcome unit :=
  match numbers with
  | [] => Return tt
  | num :: rest =>
      if negb (PyStr.startswith num "+")
      then Raise (ValueError ("Phone number " ++ num ++ " must be in E.164 format (+1234567890)"))
      else if negb (PyStr.isdigit (PyStr.tail num))
      then Raise (ValueError ("Phone number " ++ num ++ " contains invalid characters"))
      else validate_numbers rest
  end.

(** [Config._parse_phone_numbers] *)
Definition _parse_phone_numbers (numbers_str : string) : outcome (list string) :=
  let numbers := List.map PyStr.strip (PyStr.split "," numbers_str) in
  obind (validate_numbers numbers) (fun _ => Return numbers).

(** [int(os.getenv("PORT", "8000"))] *)
Definition parse_port (env : environ) : outcome Z :=
  let v := getenv env "PORT" "8000" in
  match PyStr.int v with
  | Some n => Return n
  | None => Raise (ValueError ("invalid literal for int() with base 10: " ++ v))
  end.

(** [Config.__init__], statement by statement. *)
Definition Config_init (env : environ) : outcome Config :=
  obind (_get_required env "TWILIO_ACCOUNT_SID") (fun sid =>
  obind (_get_required env "TWILIO_AUTH_TOKEN") (fun token =>
  obind (_get_required env "ALLOWED_PHONE_NUMBERS") (fun allowed_numbers_str =>
  obind (_parse_phone_numbers allowed_numbers_str) (fun allowed =>
  obind (_get_required env "AVIGILON_URL") (fun url =>
  obind (_get_required env "DOOR_BUTTON_TEXT") (fun text =>
  let h := getenv env "HOST" "0.0.0.0" in
  obind (parse_port env) (fun p =>
  Return {| twilio_account_sid := sid;
            twilio_auth_token := token;
            allowed_phone_numbers := allowed;
            avigilon_url := url;
            door_button_text := text;
            host := h;
            port := p;
            cookies_file := "cookies.json";
            rate_limit_max_requests := 10;
            rate_limit_window_seconds := 3600 |}))))))).

(** [Config.is_phone_allowed]: [phone_number in self.allowed_phone_numbers] *)
Definition is_phone_allowed (config : Config) (phone_number : string) : bool :=
  bool_decide (phone_number ∈ allowed_phone_numbers config).


(** A required variable is unset or empty. *)
Definition missing (env : environ) (key : string) : Prop :=
  env !! key = None \/ env !! key = Some "".




(* ===================================================================== *)
(** ** The outside world *)
(* ===================================================================== *)

(** Playwright objects (browser, context, page) are handles. *)
Definition handle : Type := nat.

(** What the repository calls and does not define.  [Env] is the state of
    everything outside the process (the browser, the portal, the clock);
    [Json] is the type of the Python values that [context.cookies()]
    returns and [json] reads and writes.  A Playwright call returns or
    raises one of Playwright's exceptions, and may change [Env] either
    way. *)
Class External (Env Json : Type) : Type := {
  (** [datetime.now()] *)
  datetime_now : Env -> Z * Env;
  (** [dt.strftime("%I:%M%p")] *)
  strftime_IMp : Z -> string;
  (** [str(resp)] for a [MessagingResponse] holding one message *)
  twiml_message : string -> string;
  (** the text [json.dump(v, f, indent=2)] writes *)
  json_dump : Json -> string;
  (** [json.load(f)]; [None] when it raises *)
  json_load : string -> option Json;
  (** [sync_playwright().start()] *)
  sync_playwright_start : Env -> reply unit * Env;
  (** [playwright.chromium.launch(headless=...)] *)
  chromium_launch : bool -> Env -> reply handle * Env;
  browser_new_context : handle -> Env -> reply handle * Env;
  browser_close : handle -> Env -> reply unit * Env;
  context_cookies : handle -> Env -> reply Json * Env;
  context_add_cookies : handle -> Json -> Env -> reply unit * Env;
  context_new_page : handle -> Env -> reply handle * Env;
  (** [page.goto(url, timeout=...)] *)
  page_goto : handle -> string -> Z -> Env -> reply unit * Env;
  (** the property [page.url] *)
  page_url : handle -> Env -> string;
  page_title : handle -> Env -> reply string * Env;
  (** [page.wait_for_load_state(state, timeout=...)] *)
  page_wait_for_load_state : handle -> string -> Z -> Env -> reply unit * Env;
  (** [page.get_by_text(text, exact=False).count()] *)
  locator_count : handle -> string -> Env -> reply Z * Env;
  (** [page.get_by_text(text, exact=False).first.click()] *)
  locator_first_click : handle -> string -> Env -> reply unit * Env;
  page_wait_for_timeout : handle -> Z -> Env -> reply unit * Env;
  page_close : handle -> Env -> reply unit * Env
}.

(** Ghost trace: the functions of the repository the claims speak about,
    logged on entry, and every call that leaves the process; [Raised]
    follows a Playwright call that raised. *)
Inductive event : Type :=
| Call_check_rate_limit (phone_number : string)
| Call_open_door
| Call_check_status
| Call_DoorOpener_open_door (self : nat)
| Call_DoorOpener_check_session (self : nat)
| Pw_start
| Pw_launch
| Pw_new_context (browser : handle)
| Pw_browser_close (browser : handle)
| Pw_cookies (context : handle)
| Pw_add_cookies (context : handle)
| Pw_new_page (context : handle)
| Pw_goto (page : handle) (url : string)
| Pw_title (page : handle)
| Pw_wait_for_load_state (page : handle)
| Pw_count (page : handle) (text : string)
| Pw_click (page : handle) (text : string)
| Pw_wait_for_timeout (page : handle) (ms : Z)
| Pw_close (page : handle)
| Raised (e : pw_exn)
| Fs_write (path data : string)
| Fs_chmod (path : string) (mode : Z)
| Fs_unlink (path : string).

#[global] Instance pw_exn_eq_dec : EqDecision pw_exn.
Proof. solve_decision. Defined.

#[global] Instance event_eq_dec : EqDecision event.
Proof. solve_decision. Defined.

(** A file: its text and its permission bits. *)
Record file : Type := mkFile { f_data : string; f_mode : Z }.

(** The fields of a [DoorOpener] object ([session_manager] holds no state
    of its own: its only field is [config.cookies_file]). *)
Record DoorOpener : Type := mkDoorOpener {
  browser : option handle;
  context : option handle
}.

(** The state a request handler runs in. *)
Record World (Env : Type) : Type := mkWorld {
  env : Env;
  (** the files of the working directory *)
  fs : gmap string file;
  (** the process's file-creation mask *)
  umask : Z;
  (** [main.rate_limit_data] *)
  rate_limit_data : gmap string (list Z);
  (** the [DoorOpener] objects created so far; a reference is an index *)
  heap : list DoorOpener;
  (** [door._door_opener] *)
  _door_opener : option nat;
  log : list event
}.
Arguments mkWorld {Env}.
Arguments env {Env}.
Arguments fs {Env}.
Arguments umask {Env}.
Arguments rate_limit_data {Env}.
Arguments heap {Env}.
Arguments _door_opener {Env}.
Arguments log {Env}.

(** The world at import time: nothing stored, no opener, empty trace. *)
Definition initial_world {Env} (e : Env) (files : gmap string file) (mask : Z) : World Env :=
  mkWorld e files mask ∅ [] None [].

(* ===================================================================== *)
(** ** The monad of the handlers *)
(* ===================================================================== *)

Definition M (Env A : Type) : Type := World Env -> outcome A * World Env.

Definition ret {Env A} (a : A) : M Env A := fun w => (Return a, w).

Definition bind {Env A B} (m : M Env A) (k : A -> M Env B) : M Env B :=
  fun w =>
    match m w with
    | (Return a, w') => k a w'
    | (Raise e, w') => (Raise e, w')
    end.

Definition raise {Env A} (e : exn) : M Env A := fun w => (Raise e, w).

(** [try: m  except Exception as e: h e] *)
Definition try_except {Env A} (m : M Env A) (h : exn -> M Env A) : M Env A :=
  fun w =>
    match m w with
    | (Return a, w') => (Return a, w')
    | (Raise e, w') => h e w'
    end.

(** [try: m  finally: c]: [c] runs on both exits, and an exception of its
    own replaces the pending result. *)
Definition try_finally {Env A} (m : M Env A) (c : M Env unit) : M Env A :=
  fun w =>
    match m w with
    | (r, w') =>
        match c w' with
        | (Return _, w'') => (r, w'')
        | (Raise e, w'') => (Raise e, w'')
        end
    end.

(** Run [m] and hand its outcome to the caller instead of propagating. *)
Definition attempt {Env A} (m : M Env A) : M Env (outcome A) :=
  fun w => match m w with (r, w') => (Return r, w') end.

Definition emit {Env} (ev : event) : M Env unit :=
  fun w => (Return tt, mkWorld (env w) (fs w) (umask w) (rate_limit_data w)
                               (heap w) (_door_opener w) (log w ++ [ev])).

(** A call into Playwright: logged, run on [env], and logged again when
    it raised. *)
Definition extern {Env A} (ev : event) (op : Env -> reply A * Env) : M Env A :=
  fun w =>
    match op (env w) with
    | (Ok a, e') =>
        (Return a, mkWorld e' (fs w) (umask w) (rate_limit_data w)
                           (heap w) (_door_opener w) (log w ++ [ev]))
    | (Fail x, e') =>
        (Raise (Playwright x),
         mkWorld e' (fs w) (umask w) (rate_limit_data w)
                 (heap w) (_door_opener w) (log w ++ [ev; Raised x]))
    end.

Declare Scope M_scope.
Delimit Scope M_scope with M.
Notation "x <- m ;; k" := (bind m (fun x => k))
  (at level 100, m at next level, right associativity) : M_scope.
Notation "m ;;; k" := (bind m (fun _ => k))
  (at level 100, right associativity) : M_scope.
Open Scope M_scope.

(* ===================================================================== *)
(** ** The repository's functions *)
(* ===================================================================== *)

Section Repository.

Context {Env Json : Type} {ext : External Env Json}.
Variable config : Config.

Local Abbreviation World := (World Env).
Local Abbreviation M := (M Env).

(** *** File system primitives *)

Definition set_fs (f : gmap string file) (w : World) : World :=
  mkWorld (env w) f (umask w) (rate_limit_data w) (heap w) (_door_opener w) (log w).

(** [Path.exists()] *)
Definition path_exists (path : string) : M bool :=
  fun w => (Return (bool_decide (is_Some (fs w !! path))), w).

(** [with open(path, "w") as f: f.write(data)]: an existing file keeps its
    mode, a new one gets [0o666 & ~umask]. *)
Definition write_file (path data : string) : M unit :=
  emit (Fs_write path data) ;;;
  fun w =>
    let mode := match fs w !! path with
                | Some f => f_mode f
                | None => Z.land 438 (Z.lnot (umask w))
                end in
    (Return tt, set_fs (<[path := mkFile data mode]> (fs w)) w).

(** [with open(path, "r") as f: f.read()] *)
Definition read_file (path : string) : M string :=
  fun w =>
    match fs w !! path with
    | Some f => (Return (f_data f), w)
    | None => (Raise (OSError ("No such file or directory: " ++ path)), w)
    end.

(** [os.chmod(path, mode)] *)
Definition chmod (path : string) (mode : Z) : M unit :=
  emit (Fs_chmod path mode) ;;;
  fun w =>
    match fs w !! path with
    | Some f => (Return tt, set_fs (<[path := mkFile (f_data f) mode]> (fs w)) w)
    | None => (Raise (OSError ("No such file or directory: " ++ path)), w)
    end.

(** [Path.unlink()] *)
Definition unlink (path : string) : M unit :=
  emit (Fs_unlink path) ;;;
  fun w =>
    match fs w !! path with
    | Some _ => (Return tt, set_fs (delete path (fs w)) w)
    | None => (Raise (OSError ("No such file or directory: " ++ path)), w)
    end.

(** *** auth.py: [SessionManager] *)

(** [SessionManager.cookies_exist] *)
Definition cookies_exist : M bool := path_exists (cookies_file config).

(** [SessionManager.save_cookies]; [0o600] is 384. *)
Definition save_cookies (context : handle) : M unit :=
  cookies <- extern (Pw_cookies context) (context_cookies context) ;;
  write_file (cookies_file config) (json_dump cookies) ;;;
  chmod (cookies_file config) 384.

(** [json.load(f)] on the text of the file *)
Definition load_json (data : string) : M Json :=
  match json_load data with
  | Some v => ret v
  | None => raise (JSONDecodeError data)
  end.

(** [SessionManager.load_cookies] *)
Definition load_cookies (context : handle) : M bool :=
  e <- cookies_exist ;;
  if negb e then ret false
  else
    try_except
      (data <- read_file (cookies_file config) ;;
       cookies <- load_json data ;;
       extern (Pw_add_cookies context) (context_add_cookies context cookies) ;;;
       ret true)
      (fun _ => ret false).

(** [SessionManager.clear_cookies] *)
Definition clear_cookies : M unit :=
  e <- cookies_exist ;;
  if e then unlink (cookies_file config) else ret tt.

(** ["login" in url.lower() or "signin" in url.lower()] *)
Definition is_login_url (current_url : string) : bool :=
  PyStr.contains "login" (PyStr.lower current_url)
  || PyStr.contains "signin" (PyStr.lower current_url).

(** [page.url] *)
Definition get_url (page : handle) : M string :=
  fun w => (Return (page_url page (env w)), w).

(** [SessionManager.is_session_valid] *)
Definition is_session_valid (context : handle) : M bool :=
  try_except
    (page <- extern (Pw_new_page context) (context_new_page context) ;;
     extern (Pw_goto page (avigilon_url config)) (page_goto page (avigilon_url config) 10000) ;;;
     current_url <- get_url page ;;
     title <- extern (Pw_title page) (page_title page) ;;
     extern (Pw_close page) (page_close page) ;;;
     if is_login_url current_url then ret false else ret true)
    (fun _ => ret false).

(** *** door.py: [DoorOpener] *)

Definition set_heap (h : list DoorOpener) (w : World) : World :=
  mkWorld (env w) (fs w) (umask w) (rate_limit_data w) h (_door_opener w) (log w).

Definition set_door_opener (r : option nat) (w : World) : World :=
  mkWorld (env w) (fs w) (umask w) (rate_limit_data w) (heap w) r (log w).

(** [DoorOpener()]: a new object, both fields [None]. *)
Definition DoorOpener_new : M nat :=
  fun w => (Return (List.length (heap w)), set_heap (heap w ++ [mkDoorOpener None None]) w).

(** Read the fields of the object [self] refers to.  A reference is
    always one that [DoorOpener_new] returned; for an index the heap does
    not hold the model raises. *)
Definition deref (self : nat) : M DoorOpener :=
  fun w =>
    match heap w !! self with
    | Some o => (Return o, w)
    | None => (Raise (OSError "dangling reference"), w)
    end.

(** [self.browser = b] and [self.context = c] *)
Definition set_browser (self : nat) (b : option handle) : M unit :=
  fun w => (Return tt, set_heap (alter (fun o => mkDoorOpener b (context o)) self (heap w)) w).

Definition set_context (self : nat) (c : option handle) : M unit :=
  fun w => (Return tt, set_heap (alter (fun o => mkDoorOpener (browser o) c) self (heap w)) w).

(** [DoorOpener.start] *)
Definition DoorOpener_start (self : nat) : M unit :=
  o <- deref self ;;
  match browser o with
  | Some _ => ret tt
  | None =>
      extern Pw_start sync_playwright_start ;;;
      b <- extern Pw_launch (chromium_launch true) ;;
      set_browser self (Some b) ;;;
      c <- extern (Pw_new_context b) (browser_new_context b) ;;
      set_context self (Some c) ;;;
      e <- cookies_exist ;;
      if e then (load_cookies c ;;; ret tt) else ret tt
  end.

(** [DoorOpener.stop] *)
Definition DoorOpener_stop (self : nat) : M unit :=
  o <- deref self ;;
  match browser o with
  | Some b =>
      extern (Pw_browser_close b) (browser_close b) ;;;
      set_browser self None ;;;
      set_context self None
  | None => ret tt
  end.

(** [DoorOpener.check_session] *)
Definition DoorOpener_check_session (self : nat) : M bool :=
  emit (Call_DoorOpener_check_session self) ;;;
  o <- deref self ;;
  match context o with
  | None => ret false
  | Some c => is_session_valid c
  end.

(** [str(e)] *)
Definition exn_str (e : exn) : string :=
  match e with
  | ValueError msg => msg
  | HTTPException _ detail => detail
  | OSError msg => msg
  | JSONDecodeError msg => msg
  | Playwright (TimeoutError msg) => msg
  | Playwright (Error msg) => msg
  end.

(** The two [except] clauses of [DoorOpener.open_door]. *)
Definition open_door_except (e : exn) : M (bool * string) :=
  match e with
  | Playwright (TimeoutError _) => ret (false, "timeout")
  | _ => ret (false, "error: " ++ exn_str e)
  end.

(** The [try] block of [DoorOpener.open_door] once [page] is bound. *)
Definition open_door_steps (page : handle) : M (bool * string) :=
  extern (Pw_goto page (avigilon_url config)) (page_goto page (avigilon_url config) 15000) ;;;
  current_url <- get_url page ;;
  if is_login_url current_url then ret (false, "session_expired")
  else
    extern (Pw_wait_for_load_state page) (page_wait_for_load_state page "networkidle" 10000) ;;;
    n <- extern (Pw_count page (door_button_text config))
                (locator_count page (door_button_text config)) ;;
    if n =? 0 then ret (false, "button_not_found")
    else
      extern (Pw_click page (door_button_text config))
             (locator_first_click page (door_button_text config)) ;;;
      extern (Pw_wait_for_timeout page 2000) (page_wait_for_timeout page 2000) ;;;
      ret (true, "success").

(** [DoorOpener.open_door].  [page] is [None] until [new_page] returns, so
    the [finally] clause closes a page only when one was created. *)
Definition DoorOpener_open_door (self : nat) : M (bool * string) :=
  emit (Call_DoorOpener_open_door self) ;;;
  o <- deref self ;;
  match browser o, context o with
  | Some _, Some c =>
      r <- attempt (extern (Pw_new_page c) (context_new_page c)) ;;
      match r with
      | Raise e => open_door_except e
      | Return page =>
          try_finally
            (try_except (open_door_steps page) open_door_except)
            (extern (Pw_close page) (page_close page))
      end
  | _, _ => ret (false, "Browser not initialized")
  end.

(** [get_door_opener]: the global is assigned before [start] runs. *)
Definition get_door_opener : M nat :=
  g <- (fun w => (Return (_door_opener w), w)) ;;
  match g with
  | Some r => ret r
  | None =>
      r <- DoorOpener_new ;;
      (fun w => (Return tt, set_door_opener (Some r) w)) ;;;
      DoorOpener_start r ;;;
      ret r
  end.

(** Module-level [open_door] *)
Definition open_door : M (bool * string) :=
  emit Call_open_door ;;;
  opener <- get_door_opener ;;
  DoorOpener_open_door opener.

(** The dictionary [check_status] returns. *)
Record Status : Type := mkStatus {
  st_browser_running : bool;
  st_session_valid : bool;
  st_cookies_exist : bool
}.

(** Module-level [check_status] *)
Definition check_status : M Status :=
  emit Call_check_status ;;;
  opener <- get_door_opener ;;
  session_valid <- DoorOpener_check_session opener ;;
  o <- deref opener ;;
  e <- cookies_exist ;;
  ret (mkStatus (bool_decide (is_Some (browser o))) session_valid e).

(** *** main.py *)

(** [now - timedelta(seconds=config.rate_limit_window_seconds)] *)
Definition cutoff_of (now : Z) : Z :=
  now - rate_limit_window_seconds config * 1000000.

(** The body of [check_rate_limit] after [now] is read, on the dictionary
    [rate_limit_data]: initialise, prune, test, append. *)
Definition check_rate_limit_at (now : Z) (phone_number : string)
    (data : gmap string (list Z)) : bool * gmap string (list Z) :=
  let cutoff := cutoff_of now in
  let data1 := match data !! phone_number with
               | None => <[phone_number := []]> data
               | Some _ => data
               end in
  let pruned := filter (fun ts => cutoff < ts) (default [] (data1 !! phone_number)) in
  let data2 := <[phone_number := pruned]> data1 in
  if rate_limit_max_requests config <=? Z.of_nat (List.length pruned)
  then (false, data2)
  else (true, <[phone_number := (pruned ++ [now])%list]> data2).

Definition set_rate_limit_data (d : gmap string (list Z)) (w : World) : World :=
  mkWorld (env w) (fs w) (umask w) d (heap w) (_door_opener w) (log w).

(** [datetime.now()] *)
Definition now_ : M Z :=
  fun w => match datetime_now (env w) with
           | (t, e') => (Return t, mkWorld e' (fs w) (umask w) (rate_limit_data w)
                                           (heap w) (_door_opener w) (log w))
           end.

(** [check_rate_limit] *)
Definition check_rate_limit (phone_number : string) : M bool :=
  emit (Call_check_rate_limit phone_number) ;;;
  now <- now_ ;;
  fun w =>
    match check_rate_limit_at now phone_number (rate_limit_data w) with
    | (r, d) => (Return r, set_rate_limit_data d w)
    end.

(** A request as the handler sees it: header fields in arrival order, and
    the URL. *)
Record Request : Type := mkRequest {
  headers : list (string * string);
  url : string
}.

(** [request.headers.get(key, default)]: names compare without regard to
    case, the first match wins. *)
Fixpoint headers_get (hs : list (string * string)) (key default : string) : string :=
  match hs with
  | [] => default
  | (k, v) :: rest =>
      if String.eqb (PyStr.lower k) (PyStr.lower key) then v
      else headers_get rest key default
  end.

(** [validate_twilio_request].  The validator object, the URL and the empty
    form dictionary are built and not used; none of the calls in the [try]
    block raises, so the [except] clause is never entered. *)
Definition validate_twilio_request (request : Request) : bool :=
  let signature := headers_get (headers request) "X-Twilio-Signature" "" in
  if negb (PyStr.truthy signature) then false else true.

(** [create_sms_response] *)
Definition create_sms_response (message : string) : string := twiml_message message.

(** A [PlainTextResponse]. *)
Record Response : Type := mkResponse {
  content : string;
  status_code : Z;
  media_type : string
}.

Definition xml_response (message : string) : Response :=
  mkResponse (create_sms_response message) 200 "application/xml".

(** [str(n)] for an integer *)
Definition str_of_Z (n : Z) : string := NilZero.string_of_int (Z.to_int n).

(** [Body.strip().lower()] *)
Definition command_of (Body : string) : string := PyStr.lower (PyStr.strip Body).

(** The reply to a "door" command, from what [open_door()] returned. *)
Definition door_message (success : bool) (result : string) : M string :=
  if success then
    t <- now_ ;;
    ret ("Door opened at " ++ PyStr.lstrip_char "0" (strftime_IMp t))
  else if String.eqb result "session_expired"
  then ret "Session expired. Re-authenticate on Pi."
  else ret "Failed to open door. Try again or check session.".

(** The reply to a "status" command. *)
Definition status_message (status : Status) : string :=
  if st_session_valid status then "Server online. Session active."
  else if st_cookies_exist status then "Server online. Session may be expired."
  else "Server online. No session found.".

(** [receive_sms], the handler of [POST /sms]. *)
Definition receive_sms (request : Request) (From Body : string) : M Response :=
  if negb (validate_twilio_request request)
  then raise (HTTPException 403 "Invalid signature")
  else if negb (is_phone_allowed config From)
  then ret (mkResponse "" 200 "text/plain")
  else
    ok <- check_rate_limit From ;;
    if negb ok
    then ret (xml_response ("Rate limit exceeded. Max "
                            ++ str_of_Z (rate_limit_max_requests config)
                            ++ " requests per hour."))
    else
      let command := command_of Body in
      if String.eqb command "door" then
        sr <- open_door ;;
        message <- door_message (fst sr) (snd sr) ;;
        ret (xml_response message)
      else if String.eqb command "status" then
        status <- check_status ;;
        ret (xml_response (status_message status))
      else
        ret (xml_response "Unknown command. Send 'door' to open.").

(** [shutdown_event] *)
Definition shutdown_event : M unit :=
  g <- (fun w => (Return (_door_opener w), w)) ;;
  match g with
  | Some r => DoorOpener_stop r
  | None => ret tt
  end.

End Repository.

(* ===================================================================== *)
(** ** A simulated outside world *)
(* ===================================================================== *)

(** An executable instance of [External], used to run the handlers on
    concrete requests.  The clock advances by [sim_tick] at every reading;
    [sim_raises] names the calls that raise; a JSON value is a number,
    written and read in decimal. *)
Module Sim.

Record t : Type := mk {
  sim_time : Z;
  sim_tick : Z;
  sim_raises : event -> option pw_exn;
  (** the URL a page shows after navigation *)
  sim_url : string;
  (** how many elements match the button text *)
  sim_matches : Z;
  (** the cookies of the browser context *)
  sim_jar : Decimal.uint;
  (** handles given out so far *)
  sim_handles : nat
}.

Definition call {A} (ev : event) (a : A) (s : t) : reply A * t :=
  match sim_raises s ev with
  | Some e => (Fail e, s)
  | None => (Ok a, s)
  end.

Definition fresh (ev : event) (s : t) : reply handle * t :=
  match sim_raises s ev with
  | Some e => (Fail e, s)
  | None => (Ok (sim_handles s),
             mk (sim_time s) (sim_tick s) (sim_raises s) (sim_url s)
                (sim_matches s) (sim_jar s) (S (sim_handles s)))
  end.

Definition tick (s : t) : Z * t :=
  (sim_time s,
   mk (sim_time s + sim_tick s) (sim_tick s) (sim_raises s) (sim_url s)
      (sim_matches s) (sim_jar s) (sim_handles s)).

Definition add_cookies (c : handle) (v : Decimal.uint) (s : t) : reply unit * t :=
  match sim_raises s (Pw_add_cookies c) with
  | Some e => (Fail e, s)
  | None => (Ok tt,
             mk (sim_time s) (sim_tick s) (sim_raises s) (sim_url s)
                (sim_matches s) v (sim_handles s))
  end.

#[global] Instance external : External t Decimal.uint := {|
  datetime_now := tick;
  strftime_IMp := fun _ => "07:05PM";
  twiml_message := fun m => "<Response><Message>" ++ m ++ "</Message></Response>";
  json_dump := NilEmpty.string_of_uint;
  json_load := NilEmpty.uint_of_string;
  sync_playwright_start := call Pw_start tt;
  chromium_launch := fun _ => fresh Pw_launch;
  browser_new_context := fun b => fresh (Pw_new_context b);
  browser_close := fun b => call (Pw_browser_close b) tt;
  context_cookies := fun c s => call (Pw_cookies c) (sim_jar s) s;
  context_add_cookies := add_cookies;
  context_new_page := fun c => fresh (Pw_new_page c);
  page_goto := fun p u _ => call (Pw_goto p u) tt;
  page_url := fun _ s => sim_url s;
  page_title := fun p => call (Pw_title p) "Doors";
  page_wait_for_load_state := fun p _ _ => call (Pw_wait_for_load_state p) tt;
  locator_count := fun p txt s => call (Pw_count p txt) (sim_matches s) s;
  locator_first_click := fun p txt => call (Pw_click p txt) tt;
  page_wait_for_timeout := fun p ms => call (Pw_wait_for_timeout p ms) tt;
  page_close := fun p => call (Pw_close p) tt
|}.

(** A portal that works: nothing raises, the session is live, one button
    matches.  The clock starts at [t0] and advances one second a reading. *)
Definition healthy (t0 : Z) : t :=
  mk t0 1000000 (fun _ => None) "https://portal.example/doors" 1 (Decimal.D7 Decimal.Nil) 0.

(** The same portal with chosen calls raising. *)
Definition failing (t0 : Z) (raises : event -> option pw_exn) : t :=
  mk t0 1000000 raises "https://portal.example/doors" 1 (Decimal.D7 Decimal.Nil) 0.

End Sim.

(* ===================================================================== *)
(** ** Vocabulary of the specification *)
(* ===================================================================== *)

Section Vocabulary.

Context {Env Json : Type} {ext : External Env Json}.

(** [w'] differs from [w] by calls that leave the limiter's dictionary, the
    global opener and the number of objects alone, and that log only
    events satisfying [P]. *)
Definition quiet (P : event -> Prop) (w w' : World Env) : Prop :=
  rate_limit_data w' = rate_limit_data w /\
  _door_opener w' = _door_opener w /\
  List.length (heap w') = List.length (heap w) /\
  exists evs, log w' = (log w ++ evs)%list /\ Forall P evs.

(** Every run of [m] is quiet. *)
Definition keeps {A} (P : event -> Prop) (m : M Env A) : Prop :=
  forall w, quiet P w (snd (m w)).

(** Events below the level of the repository's entry points: not the entry
    of a logged function, and not one of the three calls of [start]. *)
Definition lowlevel (ev : event) : bool :=
  match ev with
  | Call_check_rate_limit _ | Call_open_door | Call_check_status
  | Call_DoorOpener_open_door _ | Call_DoorOpener_check_session _
  | Pw_start | Pw_launch | Pw_new_context _ => false
  | _ => true
  end.

(** The events [log w'] holds beyond [log w]. *)
Definition new_events (w w' : World Env) : list event :=
  drop (List.length (log w)) (log w').

(** Events below the entry points of the repository, the three calls of
    [start] included. *)
Definition plumbing (ev : event) : bool :=
  match ev with
  | Call_check_rate_limit _ | Call_open_door | Call_check_status
  | Call_DoorOpener_open_door _ | Call_DoorOpener_check_session _ => false
  | _ => true
  end.

(** How many times the browser was launched. *)
Definition launches (l : list event) : nat := count_occ event_eq_dec l Pw_launch.

(** [w'] differs from [w] in events satisfying [P] and in nothing the
    limiter reads. *)
Definition calm (P : event -> Prop) (w w' : World Env) : Prop :=
  rate_limit_data w' = rate_limit_data w /\
  exists evs, log w' = (log w ++ evs)%list /\ Forall P evs.

(** What a run of module-level [open_door] may log after its own entry,
    and likewise for [check_status]. *)
Definition door_alphabet (ev : event) : bool :=
  plumbing ev || match ev with Call_DoorOpener_open_door _ => true | _ => false end.

Definition status_alphabet (ev : event) : bool :=
  plumbing ev || match ev with Call_DoorOpener_check_session _ => true | _ => false end.

(** The exceptions that come from outside the handler's own code. *)
Definition foreign (e : exn) : bool :=
  match e with
  | Playwright _ | OSError _ | JSONDecodeError _ => true
  | ValueError _ | HTTPException _ _ => false
  end.

(** Whatever [m] raises is foreign. *)
Definition throws {A} (m : M Env A) : Prop :=
  forall w e, fst (m w) = Raise e -> foreign e = true.

(** [request.headers.get(key)] without a default: [None] when no field of
    that name is present. *)
Fixpoint headers_find (hs : list (string * string)) (key : string) : option string :=
  match hs with
  | [] => None
  | (k, v) :: rest =>
      if String.eqb (PyStr.lower k) (PyStr.lower key) then Some v
      else headers_find rest key
  end.

(** The entry points of the running server, as a client or the framework
    may call them. *)
Inductive call : Type :=
| Do_receive_sms (request : Request) (From Body : string)
| Do_check_rate_limit (phone_number : string)
| Do_open_door
| Do_check_status
| Do_get_door_opener
| Do_shutdown.

(** The world after one call; an exception leaves the state reached. *)
Definition perform (config : Config) (c : call) (w : World Env) : World Env :=
  match c with
  | Do_receive_sms request From Body => snd (receive_sms config request From Body w)
  | Do_check_rate_limit phone_number => snd (check_rate_limit config phone_number w)
  | Do_open_door => snd (open_door config w)
  | Do_check_status => snd (check_status config w)
  | Do_get_door_opener => snd (get_door_opener config w)
  | Do_shutdown => snd (shutdown_event w)
  end.

(** The world after a sequence of calls. *)
Definition run (config : Config) (cs : list call) (w : World Env) : World Env :=
  fold_left (fun w c => perform config c w) cs w.

(** The timestamps of [l] that [check_rate_limit] keeps at time [now]. *)
Definition kept (config : Config) (now : Z) (l : list Z) : list Z :=
  filter (fun ts => cutoff_of config now < ts) l.






(** The entry of a [DoorOpener] method names the object [r]; any other
    event passes. *)
Definition on_opener (r : nat) (ev : event) : bool :=
  match ev with
  | Call_DoorOpener_open_door s | Call_DoorOpener_check_session s => Nat.eqb s r
  | _ => true
  end.

(** One opener at most: the browser was launched at most once, every
    method ran on object 0, and the global is unset with no object created
    and no launch, or it refers to object 0, the only one. *)
Definition single_opener (w : World Env) : Prop :=
  (launches (log w) <= 1)%nat /\
  Forall (fun ev => on_opener 0 ev = true) (log w) /\
  match _door_opener w with
  | None => heap w = [] /\ launches (log w) = 0%nat
  | Some r => r = 0%nat /\ List.length (heap w) = 1%nat
  end.

(** Events a running opener may log: no launch, and methods on object 0. *)
Definition steady (ev : event) : Prop :=
  ev <> Pw_launch /\ on_opener 0 ev = true.



End Vocabulary.

(* ===================================================================== *)
(** ** Concrete inputs *)
(* ===================================================================== *)

Module Scenario.

(** An environment [Config()] accepts. *)
Definition environ0 : environ :=
  <["TWILIO_ACCOUNT_SID" := "AC0123"]> (<["TWILIO_AUTH_TOKEN" := "secret"]>
  (<["ALLOWED_PHONE_NUMBERS" := "+15551230001, +15551230002"]>
  (<["AVIGILON_URL" := "https://portal.example/doors"]>
  (<["DOOR_BUTTON_TEXT" := "Unlock"]> ∅)))).

(** The configuration [Config()] builds from [environ0]. *)
Definition config0 : Config :=
  mkConfig "AC0123" "secret" ["+15551230001"; "+15551230002"]
           "https://portal.example/doors" "Unlock" "0.0.0.0" 8000
           "cookies.json" 10 3600.

(** A request that carries a signature header, and one that does not. *)
Definition signed : Request :=
  mkRequest [("host", "pi.example"); ("x-twilio-signature", "c2ln")] "https://pi.example/sms".
Definition unsigned : Request :=
  mkRequest [("host", "pi.example")] "https://pi.example/sms".

Definition world0 (e : Sim.t) : World Sim.t := initial_world e ∅ 18.

Definition phone : string := "+15551230001".



(** The world after the first [get_door_opener()] on a portal. *)
Definition started (e : Sim.t) : World Sim.t :=
  snd (get_door_opener config0 (world0 e)).


End Scenario.

(* ===================================================================== *)
(** ** The scripts, and more vocabulary *)
(* ===================================================================== *)

Section Scripts.

Context {Env Json : Type} {ext : External Env Json}.
Variable config : Config.

(** The [__main__] block of [door.py]; the value is the exit status. *)
Definition door_main : M Env Z :=
  status <- check_status config ;;
  if negb (st_cookies_exist status) then ret 1
  else if negb (st_session_valid status) then ret 1
  else
    sm <- open_door config ;;
    if fst sm then ret 0 else ret 1.

(** The call [c] consults the limiter for [phone_number]. *)
Definition about (phone_number : string) (c : call) : bool :=
  match c with
  | Do_receive_sms _ From _ => String.eqb From phone_number
  | Do_check_rate_limit q => String.eqb q phone_number
  | _ => false
  end.

(** The call [c] is one a client or the framework makes: not a direct
    call of [check_rate_limit], which only the handler makes. *)
Definition from_outside (c : call) : bool :=
  match c with
  | Do_check_rate_limit _ => false
  | _ => true
  end.

(** The global opener exists and lacks a browser or a context. *)
Definition dormant (w : World Env) : Prop :=
  exists r o, _door_opener w = Some r /\ heap w !! r = Some o
              /\ (browser o = None \/ context o = None).

(** A trace without a call into Playwright. *)
Definition no_browser_call (evs : list event) : Prop :=
  Forall (fun ev => match ev with
                    | Call_check_rate_limit _ | Call_open_door | Call_check_status
                    | Call_DoorOpener_open_door _ | Call_DoorOpener_check_session _
                    | Fs_write _ _ | Fs_chmod _ _ | Fs_unlink _ => True
                    | _ => False
                    end) evs.

(** The messages the handler sends back. *)
Definition reply_template (message : string) : Prop :=
  message = "Rate limit exceeded. Max "
            ++ str_of_Z (rate_limit_max_requests config) ++ " requests per hour."
  \/ (exists t, message = "Door opened at " ++ PyStr.lstrip_char "0" (strftime_IMp t))
  \/ message = "Session expired. Re-authenticate on Pi."
  \/ message = "Failed to open door. Try again or check session."
  \/ message = "Server online. Session active."
  \/ message = "Server online. Session may be expired."
  \/ message = "Server online. No session found."
  \/ message = "Unknown command. Send 'door' to open.".

(** A view of the world that ignores the outside state and the trace. *)
Definition static {X} (view : World Env -> X) : Prop :=
  forall e f u d h g l e' l',
    view (mkWorld e f u d h g l) = view (mkWorld e' f u d h g l').

(** Every run of [m] leaves the view as it was. *)
Definition preserves {X A} (view : World Env -> X) (m : M Env A) : Prop :=
  forall w, view (snd (m w)) = view w.

(** Everything of the world but the outside state and the trace. *)
Definition inside (w : World Env) :
    gmap string file * Z * gmap string (list Z) * list DoorOpener * option nat :=
  (fs w, umask w, rate_limit_data w, heap w, _door_opener w).

End Scripts.

(* ===================================================================== *)
(** ** auth.py: the interactive setup *)
(* ===================================================================== *)

(** What [manual_authenticate] needs beyond [External]: the terminal, and
    the end of the [with sync_playwright()] block.  [input] raising
    ([EOFError] on a closed terminal) is a [Fail]: like every exception of
    the model it is an [Exception], which is all the code distinguishes. *)
Class Terminal (Env : Type) : Type := {
  (** [input(prompt)] *)
  input : string -> Env -> reply string * Env;
  (** [sync_playwright().__exit__(...)] *)
  sync_playwright_exit : Env -> reply unit * Env
}.

Section Setup.

Context {Env Json : Type} {ext : External Env Json} {term : Terminal Env}.
Variable config : Config.

(** A call that leaves the process without an entry in the trace. *)
Definition outside {A} (op : Env -> reply A * Env) : M Env A :=
  fun w =>
    match op (env w) with
    | (Ok a, e') =>
        (Return a, mkWorld e' (fs w) (umask w) (rate_limit_data w)
                           (heap w) (_door_opener w) (log w))
    | (Fail x, e') =>
        (Raise (Playwright x),
         mkWorld e' (fs w) (umask w) (rate_limit_data w)
                 (heap w) (_door_opener w) (log w))
    end.

(** The [try] block of [manual_authenticate]: [true] stands for its
    [return False], [false] for falling through to the saving. *)
Definition verify_button (browser page : handle) : M Env bool :=
  try_except
    (count <- extern (Pw_count page (door_button_text config))
                     (locator_count page (door_button_text config)) ;;
     if 0 <? count then ret false
     else
       response <- outside (input "Save session anyway? (y/n): ") ;;
       if negb (String.eqb (PyStr.lower response) "y") then
         extern (Pw_browser_close browser) (browser_close browser) ;;;
         ret true
       else ret false)
    (fun _ => ret false).

(** [manual_authenticate].  [sync_playwright().__enter__()] is [start()];
    [page.goto(url)] waits for Playwright's default of 30 seconds. *)
Definition manual_authenticate : M Env bool :=
  extern Pw_start sync_playwright_start ;;;
  try_finally
    (browser <- extern Pw_launch (chromium_launch false) ;;
     context <- extern (Pw_new_context browser) (browser_new_context browser) ;;
     page <- extern (Pw_new_page context) (context_new_page context) ;;
     extern (Pw_goto page (avigilon_url config))
            (page_goto page (avigilon_url config) 30000) ;;;
     outside (input "Press ENTER when logged in...") ;;;
     cancelled <- verify_button browser page ;;
     if cancelled then ret false
     else
       save_cookies config context ;;;
       extern (Pw_browser_close browser) (browser_close browser) ;;;
       ret true)
    (outside sync_playwright_exit).

(** The calls of [manual_authenticate] up to the first prompt. *)
Definition login_trace (browser context page : handle) : list event :=
  [Pw_start; Pw_launch; Pw_new_context browser; Pw_new_page context;
   Pw_goto page (avigilon_url config)].

(** The calls of [save_cookies] and the closing of the browser. *)
Definition saving_trace (browser context : handle) (cookies : Json) : list event :=
  [Pw_cookies context;
   Fs_write (cookies_file config) (json_dump cookies);
   Fs_chmod (cookies_file config) 384;
   Pw_browser_close browser].

End Setup.

Module Desk.

(** A user who answers every prompt with [answer]. *)
Definition answering (answer : string) : Terminal Sim.t := {|
  input := fun _ s => (Ok answer, s);
  sync_playwright_exit := fun s => (Ok tt, s)
|}.

(** A portal without the button. *)
Definition no_button : Sim.t :=
  Sim.mk 0 1000000 (fun _ => None) "https://portal.example/doors" 0
         (Decimal.D7 Decimal.Nil) 0.

(** A portal without the button, on which the browser fails to close,
    after [n] handles were given out. *)
Definition stuck_after (n : nat) : Sim.t :=
  Sim.mk 0 1000000
         (fun ev => match ev with
                    | Pw_browser_close _ => Some (Error "Target closed")
                    | _ => None
                    end)
         "https://portal.example/doors" 0 (Decimal.D7 Decimal.Nil) n.

Definition stuck_browser : Sim.t := stuck_after 0.

(** A machine on which the browser cannot be launched. *)
Definition no_launch : Sim.t :=
  Sim.failing 0 (fun ev =>
    match ev with
    | Pw_launch => Some (Error "Executable doesn't exist")
    | _ => None
    end).

(** A sender with two requests of more than an hour ago. *)
Definition long_ago : World Sim.t :=
  mkWorld (Sim.healthy 4000000000) ∅ 18 {[Scenario.phone := [1; 2]]} [] None [].

(** A working directory that holds saved cookies. *)
Definition with_cookies : World Sim.t :=
  initial_world (Sim.healthy 0) {["cookies.json" := mkFile "7" 384]} 18.

(** A working directory whose cookies file is not JSON. *)
Definition corrupt_cookies : World Sim.t :=
  initial_world (Sim.healthy 0) {["cookies.json" := mkFile "{oops" 384]} 18.

End Desk.

(* ===================================================================== *)
(** * Properties *)
(* ===================================================================== *)

Section Frame.

Context {Env Json : Type} {ext : External Env Json}.
Variable P : event -> Prop.

Lemma quiet_refl (w : World Env) : quiet P w w.
Proof.
  repeat split. exists []. rewrite app_nil_r. auto.
Qed.

Lemma quiet_trans (w1 w2 w3 : World Env) :
  quiet P w1 w2 -> quiet P w2 w3 -> quiet P w1 w3.
Proof.
  intros (Hr & Hg & Hh & evs & Hl & Hp) (Hr' & Hg' & Hh' & evs' & Hl' & Hp').
  repeat split; try congruence.
  exists (evs ++ evs')%list. split.
  - rewrite Hl', Hl, app_assoc. reflexivity.
  - apply Forall_app; auto.
Qed.

Lemma keeps_ret {A} (a : A) : keeps P (ret a : M Env A).
Proof. intros w. apply quiet_refl. Qed.

Lemma keeps_raise {A} (e : exn) : keeps P (raise e : M Env A).
Proof. intros w. apply quiet_refl. Qed.

Lemma keeps_bind {A B} (m : M Env A) (k : A -> M Env B) :
  keeps P m -> (forall a, keeps P (k a)) -> keeps P (bind m k).
Proof.
  intros Hm Hk w. unfold bind. specialize (Hm w).
  destruct (m w) as [[a | e] w1]; simpl in *; auto.
  eapply quiet_trans; [exact Hm | apply Hk].
Qed.

Lemma keeps_try_except {A} (m : M Env A) (h : exn -> M Env A) :
  keeps P m -> (forall e, keeps P (h e)) -> keeps P (try_except m h).
Proof.
  intros Hm Hh w. unfold try_except. specialize (Hm w).
  destruct (m w) as [[a | e] w1]; simpl in *; auto.
  eapply quiet_trans; [exact Hm | apply Hh].
Qed.

Lemma keeps_try_finally {A} (m : M Env A) (c : M Env unit) :
  keeps P m -> keeps P c -> keeps P (try_finally m c).
Proof.
  intros Hm Hc w. unfold try_finally. specialize (Hm w).
  destruct (m w) as [r w1]; simpl in *. specialize (Hc w1).
  destruct (c w1) as [[[] | e] w2]; simpl in *; eapply quiet_trans; eauto.
Qed.

Lemma keeps_attempt {A} (m : M Env A) : keeps P m -> keeps P (attempt m).
Proof.
  intros Hm w. unfold attempt. specialize (Hm w).
  destruct (m w) as [r w1]; auto.
Qed.

Lemma keeps_emit (ev : event) : P ev -> keeps P (emit ev : M Env unit).
Proof.
  intros Hev w. repeat split. exists [ev]. simpl. auto.
Qed.

Lemma keeps_extern {A} (ev : event) (op : Env -> reply A * Env) :
  P ev -> (forall x, P (Raised x)) -> keeps P (extern ev op).
Proof.
  intros Hev Hx w. unfold extern.
  destruct (op (env w)) as [[a | x] e1]; repeat split; simpl.
  - exists [ev]. auto.
  - exists [ev; Raised x]. auto.
Qed.

(** A step that returns the world it was given. *)
Lemma keeps_reader {A} (m : M Env A) :
  (forall w, snd (m w) = w) -> keeps P m.
Proof. intros H w. rewrite H. apply quiet_refl. Qed.

End Frame.

(** One step of a [keeps] proof: peel the outermost combinator. *)
Ltac keeps_step :=
  lazymatch goal with
  | |- keeps _ (bind _ _) => apply keeps_bind; [| intros ?]
  | |- keeps _ (ret _) => apply keeps_ret
  | |- keeps _ (raise _) => apply keeps_raise
  | |- keeps _ (try_except _ _) => apply keeps_try_except; [| intros ?]
  | |- keeps _ (try_finally _ _) => apply keeps_try_finally
  | |- keeps _ (attempt _) => apply keeps_attempt
  | |- keeps _ (emit _) => apply keeps_emit
  | |- keeps _ (extern _ _) => apply keeps_extern; [| intros ?]
  | |- keeps _ (if ?b then _ else _) => destruct b
  | |- keeps _ (match ?x with _ => _ end) => destruct x
  end.

Create HintDb keeps.

Section Quiet.

Context {Env Json : Type} {ext : External Env Json}.
Variable config : Config.
Variable P : event -> Prop.
Hypothesis HP : forall ev, lowlevel ev = true -> P ev.

Local Ltac low := solve [apply HP; reflexivity].
Local Ltac keeps_auto := repeat (first [keeps_step | low | solve [eauto with keeps]]).

Lemma keeps_path_exists path : keeps P (path_exists path : M Env bool).
Proof. apply keeps_reader. reflexivity. Qed.

Lemma keeps_read_file path : keeps P (read_file path : M Env string).
Proof. apply keeps_reader. intros w. unfold read_file. destruct (fs w !! path); reflexivity. Qed.

Lemma keeps_get_url page : keeps P (get_url page).
Proof. apply keeps_reader. reflexivity. Qed.

Lemma keeps_deref self : keeps P (deref self : M Env DoorOpener).
Proof. apply keeps_reader. intros w. unfold deref. destruct (heap w !! self); reflexivity. Qed.

Lemma keeps_now : keeps P now_.
Proof.
  intros w. unfold now_. destruct (datetime_now (env w)) as [t e1].
  repeat split. exists []. simpl. rewrite app_nil_r. auto.
Qed.

Lemma keeps_write_file path data : keeps P (write_file path data : M Env unit).
Proof.
  unfold write_file. keeps_auto. intros w. repeat split. exists [].
  simpl. rewrite app_nil_r. auto.
Qed.

Lemma keeps_chmod path mode : keeps P (chmod path mode : M Env unit).
Proof.
  unfold chmod. keeps_auto. intros w.
  destruct (fs w !! path); repeat split; exists []; simpl; rewrite app_nil_r; auto.
Qed.

Lemma keeps_unlink path : keeps P (unlink path : M Env unit).
Proof.
  unfold unlink. keeps_auto. intros w.
  destruct (fs w !! path); repeat split; exists []; simpl; rewrite app_nil_r; auto.
Qed.

Lemma keeps_set_browser self b : keeps P (set_browser self b : M Env unit).
Proof.
  intros w. repeat split; simpl.
  - apply length_alter.
  - exists []. rewrite app_nil_r. auto.
Qed.

Lemma keeps_set_context self c : keeps P (set_context self c : M Env unit).
Proof.
  intros w. repeat split; simpl.
  - apply length_alter.
  - exists []. rewrite app_nil_r. auto.
Qed.

Hint Resolve keeps_path_exists keeps_read_file keeps_get_url keeps_deref keeps_now
  keeps_write_file keeps_chmod keeps_unlink keeps_set_browser keeps_set_context : keeps.

Lemma keeps_cookies_exist : keeps P (cookies_exist config : M Env bool).
Proof. unfold cookies_exist. auto with keeps. Qed.
Hint Resolve keeps_cookies_exist : keeps.

Lemma keeps_save_cookies ctx : keeps P (save_cookies config ctx).
Proof. unfold save_cookies. keeps_auto. Qed.

Lemma keeps_load_json data : keeps P (load_json data).
Proof. unfold load_json. keeps_auto. Qed.
Hint Resolve keeps_load_json : keeps.

Lemma keeps_load_cookies ctx : keeps P (load_cookies config ctx).
Proof. unfold load_cookies. keeps_auto. Qed.

Lemma keeps_clear_cookies : keeps P (clear_cookies config : M Env unit).
Proof. unfold clear_cookies. keeps_auto. Qed.

Lemma keeps_is_session_valid ctx : keeps P (is_session_valid config ctx).
Proof. unfold is_session_valid. keeps_auto. Qed.

Lemma keeps_open_door_except e : keeps P (open_door_except e : M Env (bool * string)).
Proof. unfold open_door_except. keeps_auto. Qed.

Lemma keeps_open_door_steps page : keeps P (open_door_steps config page).
Proof. unfold open_door_steps. keeps_auto. Qed.

Hint Resolve keeps_save_cookies keeps_load_cookies keeps_clear_cookies
  keeps_is_session_valid keeps_open_door_except keeps_open_door_steps : keeps.

Lemma keeps_DoorOpener_stop self : keeps P (DoorOpener_stop self : M Env unit).
Proof. unfold DoorOpener_stop. keeps_auto. Qed.

Lemma keeps_DoorOpener_check_session self :
  P (Call_DoorOpener_check_session self) ->
  keeps P (DoorOpener_check_session config self).
Proof. intros H. unfold DoorOpener_check_session. keeps_auto. Qed.

Lemma keeps_DoorOpener_open_door self :
  P (Call_DoorOpener_open_door self) ->
  keeps P (DoorOpener_open_door config self).
Proof. intros H. unfold DoorOpener_open_door. keeps_auto. Qed.

Lemma keeps_door_message success result : keeps P (door_message success result).
Proof. unfold door_message. keeps_auto. Qed.

End Quiet.

#[export] Hint Resolve keeps_path_exists keeps_read_file keeps_get_url keeps_deref keeps_now
  keeps_write_file keeps_chmod keeps_unlink keeps_set_browser keeps_set_context
  keeps_cookies_exist keeps_save_cookies keeps_load_json keeps_load_cookies
  keeps_clear_cookies keeps_is_session_valid keeps_open_door_except
  keeps_open_door_steps keeps_DoorOpener_stop keeps_DoorOpener_check_session
  keeps_DoorOpener_open_door keeps_door_message : keeps.

Section Running.

Context {Env Json : Type} {ext : External Env Json}.

Lemma run_bind {A B} (m : M Env A) (k : A -> M Env B) (w : World Env) :
  bind m k w = match m w with
               | (Return a, w') => k a w'
               | (Raise e, w') => (Raise e, w')
               end.
Proof. reflexivity. Qed.

Lemma run_extern {A} (ev : event) (op : Env -> reply A * Env) (w : World Env) :
  extern ev op w =
  match op (env w) with
  | (Ok a, e') =>
      (Return a, mkWorld e' (fs w) (umask w) (rate_limit_data w)
                         (heap w) (_door_opener w) (log w ++ [ev]))
  | (Fail x, e') =>
      (Raise (Playwright x),
       mkWorld e' (fs w) (umask w) (rate_limit_data w)
               (heap w) (_door_opener w) (log w ++ [ev; Raised x]))
  end.
Proof. reflexivity. Qed.

Lemma launches_app (l1 l2 : list event) :
  launches (l1 ++ l2) = (launches l1 + launches l2)%nat.
Proof. apply count_occ_app. Qed.

Lemma launches_lowlevel (l : list event) :
  Forall (fun ev => lowlevel ev = true) l -> launches l = 0%nat.
Proof.
  induction 1 as [| ev l Hev _ IH]; [reflexivity |].
  unfold launches in *. simpl.
  destruct (event_eq_dec ev Pw_launch) as [-> | _]; [discriminate | exact IH].
Qed.

Lemma lowlevel_plumbing (ev : event) : lowlevel ev = true -> plumbing ev = true.
Proof. destruct ev; simpl; congruence. Qed.

Lemma calm_refl (P : event -> Prop) (w : World Env) : calm P w w.
Proof. split; [reflexivity |]. exists []. rewrite app_nil_r. auto. Qed.

End Running.

(** Unfold the field updates of a world and project. *)
Ltac wsimpl :=
  unfold set_heap, set_fs, set_door_opener, set_rate_limit_data in *;
  cbn [env log fs umask rate_limit_data heap _door_opener fst snd] in *.

Section Opener.

Context {Env Json : Type} {ext : External Env Json}.
Variable config : Config.

(** [start] on an object whose browser is running changes nothing. *)
Lemma start_running (self : nat) (w : World Env) (o : DoorOpener) (b : handle) :
  heap w !! self = Some o -> browser o = Some b ->
  DoorOpener_start config self w = (Return tt, w).
Proof.
  intros Ho Hb. unfold DoorOpener_start. rewrite run_bind.
  unfold deref. rewrite Ho, Hb. reflexivity.
Qed.

(** [start] launches at most once, touches neither the limiter nor the
    global, and logs nothing above the plumbing. *)
Lemma start_spec (self : nat) (w w' : World Env) (r : outcome unit) :
  DoorOpener_start config self w = (r, w') ->
  rate_limit_data w' = rate_limit_data w /\
  _door_opener w' = _door_opener w /\
  List.length (heap w') = List.length (heap w) /\
  exists evs, log w' = (log w ++ evs)%list /\
              Forall (fun ev => plumbing ev = true) evs /\
              (launches evs <= 1)%nat.
Proof.
  intros E. unfold DoorOpener_start in E. rewrite run_bind in E. unfold deref at 1 in E.
  destruct (heap w !! self) as [o |].
  2:{ injection E as <- <-. repeat split. exists []. rewrite app_nil_r. repeat split; auto. }
  destruct (browser o).
  { injection E as <- <-. repeat split. exists []. rewrite app_nil_r. repeat split; auto. }
  rewrite run_bind, run_extern in E.
  destruct (sync_playwright_start (env w)) as [[[] | x] e1].
  2:{ injection E as <- <-. repeat split. exists [Pw_start; Raised x]. repeat split; auto. }
  rewrite run_bind, run_extern in E. cbn [env log fs umask rate_limit_data heap _door_opener] in E.
  destruct (chromium_launch true e1) as [[b | x] e2].
  2:{ injection E as <- <-. repeat split. exists [Pw_start; Pw_launch; Raised x].
      simpl. rewrite <- app_assoc. repeat split; auto. }
  rewrite run_bind in E. unfold set_browser at 1 in E.
  rewrite run_bind, run_extern in E.
  cbn [env log fs umask rate_limit_data heap _door_opener set_heap] in E.
  destruct (browser_new_context b e2) as [[c | x] e3].
  2:{ injection E as <- <-. simpl. repeat split; [apply length_alter |].
      exists [Pw_start; Pw_launch; Pw_new_context b; Raised x].
      rewrite <- !app_assoc. repeat split; auto. }
  rewrite run_bind in E. unfold set_context at 1 in E.
  cbn [env log fs umask rate_limit_data heap _door_opener set_heap] in E.
  match type of E with
  | bind (cookies_exist config) ?k ?w0 = _ =>
      assert (Hk : keeps (fun ev => lowlevel ev = true) (bind (cookies_exist config) k))
        by (apply keeps_bind; [auto with keeps | intros [|]; repeat keeps_step; auto with keeps]);
      destruct (Hk w0) as (Hr & Hg & Hh & evs & Hl & Hp)
  end.
  rewrite E in Hr, Hg, Hh, Hl. wsimpl.
  repeat split; try assumption.
  - rewrite Hh, !length_alter. reflexivity.
  - exists ([Pw_start; Pw_launch; Pw_new_context b] ++ evs)%list. repeat split.
    + rewrite Hl, <- !app_assoc. reflexivity.
    + apply Forall_app. split; [repeat constructor |].
      eapply Forall_impl; [exact Hp |]. apply lowlevel_plumbing.
    + rewrite launches_app, (launches_lowlevel evs Hp). simpl. lia.
Qed.

Lemma get_door_opener_some (w : World Env) (g : nat) :
  _door_opener w = Some g -> get_door_opener config w = (Return g, w).
Proof.
  intros Hg. unfold get_door_opener. rewrite run_bind. rewrite Hg. reflexivity.
Qed.

(** The first call creates the object, stores it in the global, and only
    then starts it; the reference it returns is the one it stored. *)
Lemma get_door_opener_none (w w' : World Env) (r : outcome nat) :
  _door_opener w = None ->
  get_door_opener config w = (r, w') ->
  rate_limit_data w' = rate_limit_data w /\
  _door_opener w' = Some (List.length (heap w)) /\
  List.length (heap w') = S (List.length (heap w)) /\
  (forall g, r = Return g -> g = List.length (heap w)) /\
  exists evs, log w' = (log w ++ evs)%list /\
              Forall (fun ev => plumbing ev = true) evs /\
              (launches evs <= 1)%nat.
Proof.
  intros Hg E. unfold get_door_opener in E. rewrite run_bind in E. rewrite Hg in E.
  rewrite run_bind in E. unfold DoorOpener_new at 1 in E.
  rewrite run_bind in E. rewrite run_bind in E.
  destruct (DoorOpener_start config (List.length (heap w))
              (set_door_opener (Some (List.length (heap w)))
                 (set_heap (heap w ++ [mkDoorOpener None None]) w))) as [rs ws] eqn:Es.
  apply start_spec in Es. destruct Es as (Hr & Hd & Hh & evs & Hl & Hp & Hn).
  wsimpl. rewrite length_app in Hh. simpl in Hh.
  assert (w' = ws /\ forall g, r = Return g -> g = List.length (heap w)) as [-> Hret].
  { destruct rs as [[] | e]; injection E as <- <-; split; auto; intros g Hx; congruence. }
  repeat split; try assumption.
  - rewrite Hh. lia.
  - exists evs. auto.
Qed.

Lemma get_door_opener_calm (w w' : World Env) (r : outcome nat) :
  get_door_opener config w = (r, w') ->
  calm (fun ev => plumbing ev = true) w w'.
Proof.
  intros E. destruct (_door_opener w) as [g |] eqn:Hg.
  - rewrite (get_door_opener_some w g Hg) in E. injection E as <- <-. apply calm_refl.
  - destruct (get_door_opener_none w w' r Hg E) as (Hr & _ & _ & _ & evs & Hl & Hp & _).
    split; [assumption |]. exists evs. auto.
Qed.

(** Module-level [open_door] logs its entry first, then plumbing and the
    entry of the method. *)
Lemma open_door_events (w w' : World Env) (r : outcome (bool * string)) :
  open_door config w = (r, w') ->
  rate_limit_data w' = rate_limit_data w /\
  exists evs, log w' = (log w ++ Call_open_door :: evs)%list /\
              Forall (fun ev => door_alphabet ev = true) evs.
Proof.
  intros E. unfold open_door in E. rewrite run_bind in E. unfold emit at 1 in E.
  rewrite run_bind in E.
  match type of E with
  | context [get_door_opener config ?w0] =>
      destruct (get_door_opener config w0) as [rg wg] eqn:Eg;
      apply get_door_opener_calm in Eg; destruct Eg as (Hr & evs & Hl & Hp)
  end.
  wsimpl.
  destruct rg as [g | e].
  2:{ injection E as <- <-. split; [assumption |]. exists evs. split.
      - rewrite Hl, <- app_assoc. reflexivity.
      - eapply Forall_impl; [exact Hp |]. intros ev H. unfold door_alphabet.
        simpl in H. rewrite H. reflexivity. }
  assert (Hk : keeps (fun ev => door_alphabet ev = true) (DoorOpener_open_door config g)).
  { apply keeps_DoorOpener_open_door; [| reflexivity].
    intros ev H. unfold door_alphabet. rewrite (lowlevel_plumbing ev H). reflexivity. }
  destruct (Hk wg) as (Hr' & _ & _ & evs' & Hl' & Hp'). rewrite E in Hr', Hl'. wsimpl.
  split; [congruence |].
  exists (evs ++ evs')%list. split.
  - rewrite Hl', Hl, <- !app_assoc. reflexivity.
  - apply Forall_app. split; [| assumption].
    eapply Forall_impl; [exact Hp |]. intros ev H. unfold door_alphabet.
    simpl in H. rewrite H. reflexivity.
Qed.

(** Module-level [check_status], likewise. *)
Lemma check_status_events (w w' : World Env) (r : outcome Status) :
  check_status config w = (r, w') ->
  rate_limit_data w' = rate_limit_data w /\
  exists evs, log w' = (log w ++ Call_check_status :: evs)%list /\
              Forall (fun ev => status_alphabet ev = true) evs.
Proof.
  intros E. unfold check_status in E. rewrite run_bind in E. unfold emit at 1 in E.
  rewrite run_bind in E.
  match type of E with
  | context [get_door_opener config ?w0] =>
      destruct (get_door_opener config w0) as [rg wg] eqn:Eg;
      apply get_door_opener_calm in Eg; destruct Eg as (Hr & evs & Hl & Hp)
  end.
  wsimpl.
  destruct rg as [g | e].
  2:{ injection E as <- <-. split; [assumption |]. exists evs. split.
      - rewrite Hl, <- app_assoc. reflexivity.
      - eapply Forall_impl; [exact Hp |]. intros ev H. unfold status_alphabet.
        simpl in H. rewrite H. reflexivity. }
  match type of E with
  | ?m wg = _ =>
      assert (Hk : keeps (fun ev => status_alphabet ev = true) m)
  end.
  { assert (HP : forall ev, lowlevel ev = true -> status_alphabet ev = true).
    { intros ev H. unfold status_alphabet. rewrite (lowlevel_plumbing ev H). reflexivity. }
    repeat (first [keeps_step | solve [eauto with keeps]]). }
  destruct (Hk wg) as (Hr' & _ & _ & evs' & Hl' & Hp'). rewrite E in Hr', Hl'. wsimpl.
  split; [congruence |].
  exists (evs ++ evs')%list. split.
  - rewrite Hl', Hl, <- !app_assoc. reflexivity.
  - apply Forall_app. split; [| assumption].
    eapply Forall_impl; [exact Hp |]. intros ev H. unfold status_alphabet.
    simpl in H. rewrite H. reflexivity.
Qed.

(** [check_rate_limit] always returns; what it returns and stores is
    [check_rate_limit_at] at the reading of the clock. *)
Lemma check_rate_limit_run (phone_number : string) (w : World Env) :
  check_rate_limit config phone_number w =
  (Return (fst (check_rate_limit_at config (fst (datetime_now (env w))) phone_number
                                    (rate_limit_data w))),
   mkWorld (snd (datetime_now (env w))) (fs w) (umask w)
           (snd (check_rate_limit_at config (fst (datetime_now (env w))) phone_number
                                     (rate_limit_data w)))
           (heap w) (_door_opener w) (log w ++ [Call_check_rate_limit phone_number])).
Proof.
  unfold check_rate_limit. rewrite run_bind. unfold emit at 1.
  rewrite run_bind. unfold now_ at 1. wsimpl.
  destruct (datetime_now (env w)) as [t e1]. wsimpl.
  destruct (check_rate_limit_at config t phone_number (rate_limit_data w)) as [ok d].
  reflexivity.
Qed.

End Opener.

Section Throws.

Context {Env Json : Type} {ext : External Env Json}.
Variable config : Config.

Lemma throws_ret {A} (a : A) : throws (ret a : M Env A).
Proof. intros w e H. discriminate. Qed.

Lemma throws_raise {A} (e : exn) : foreign e = true -> throws (raise e : M Env A).
Proof. intros He w e' H. injection H as <-. exact He. Qed.

Lemma throws_bind {A B} (m : M Env A) (k : A -> M Env B) :
  throws m -> (forall a, throws (k a)) -> throws (bind m k).
Proof.
  intros Hm Hk w e. rewrite run_bind. specialize (Hm w).
  destruct (m w) as [[a | e'] w1]; simpl in *.
  - apply Hk.
  - intros H. injection H as <-. auto.
Qed.

Lemma throws_try_except {A} (m : M Env A) (h : exn -> M Env A) :
  (forall e, throws (h e)) -> throws (try_except m h).
Proof.
  intros Hh w e. unfold try_except.
  destruct (m w) as [[a | e'] w1]; simpl; [discriminate | apply Hh].
Qed.

Lemma throws_try_finally {A} (m : M Env A) (c : M Env unit) :
  throws m -> throws c -> throws (try_finally m c).
Proof.
  intros Hm Hc w e. unfold try_finally. specialize (Hm w).
  destruct (m w) as [r w1]. specialize (Hc w1).
  destruct (c w1) as [[[] | e'] w2]; simpl in *; [apply Hm |].
  intros H. injection H as <-. auto.
Qed.

Lemma throws_attempt {A} (m : M Env A) : throws (attempt m).
Proof. intros w e. unfold attempt. destruct (m w). discriminate. Qed.

Lemma throws_emit (ev : event) : throws (emit ev : M Env unit).
Proof. intros w e H. discriminate. Qed.

Lemma throws_extern {A} (ev : event) (op : Env -> reply A * Env) : throws (extern ev op).
Proof.
  intros w e. rewrite run_extern.
  destruct (op (env w)) as [[a | x] e1]; simpl; [discriminate |].
  intros H. injection H as <-. reflexivity.
Qed.

Lemma throws_reader {A} (m : M Env A) :
  (forall w, exists a, fst (m w) = Return a) -> throws m.
Proof. intros H w e He. destruct (H w) as [a Ha]. congruence. Qed.

Lemma throws_deref self : throws (deref self : M Env DoorOpener).
Proof.
  intros w e. unfold deref. destruct (heap w !! self); simpl; [discriminate |].
  intros H. injection H as <-. reflexivity.
Qed.

Lemma throws_now : throws now_.
Proof. apply throws_reader. intros w. unfold now_. destruct (datetime_now (env w)). eauto. Qed.

Lemma throws_cookies_exist : throws (cookies_exist config : M Env bool).
Proof. apply throws_reader. intros w. eexists. reflexivity. Qed.

Local Ltac throws_step :=
  lazymatch goal with
  | |- throws (bind _ _) => apply throws_bind; [| intros ?]
  | |- throws (ret _) => apply throws_ret
  | |- throws (try_except _ _) => apply throws_try_except; intros ?
  | |- throws (try_finally _ _) => apply throws_try_finally
  | |- throws (attempt _) => apply throws_attempt
  | |- throws (emit _) => apply throws_emit
  | |- throws (extern _ _) => apply throws_extern
  | |- throws (deref _) => apply throws_deref
  | |- throws now_ => apply throws_now
  | |- throws (cookies_exist _) => apply throws_cookies_exist
  | |- throws (if ?b then _ else _) => destruct b
  | |- throws (match ?x with _ => _ end) => destruct x
  end.

Lemma throws_load_cookies ctx : throws (load_cookies config ctx).
Proof. unfold load_cookies. repeat throws_step. Qed.

Lemma throws_is_session_valid ctx : throws (is_session_valid config ctx).
Proof. unfold is_session_valid. repeat throws_step. Qed.

Lemma throws_set_browser self b : throws (set_browser self b : M Env unit).
Proof. apply throws_reader. intros w. eexists. reflexivity. Qed.

Lemma throws_set_context self c : throws (set_context self c : M Env unit).
Proof. apply throws_reader. intros w. eexists. reflexivity. Qed.

Lemma throws_DoorOpener_start self : throws (DoorOpener_start config self).
Proof.
  unfold DoorOpener_start.
  repeat first [throws_step | apply throws_set_browser | apply throws_set_context
               | apply throws_load_cookies].
Qed.

Lemma throws_get_door_opener : throws (get_door_opener config).
Proof.
  unfold get_door_opener.
  repeat first [throws_step | apply throws_DoorOpener_start
               | (apply throws_reader; intros w; eexists; reflexivity)].
Qed.

Lemma throws_open_door_except e : throws (open_door_except e : M Env (bool * string)).
Proof. unfold open_door_except. repeat throws_step. Qed.

Lemma throws_DoorOpener_open_door self : throws (DoorOpener_open_door config self).
Proof.
  unfold DoorOpener_open_door.
  repeat first [throws_step | apply throws_open_door_except].
Qed.

Lemma throws_open_door : throws (open_door config).
Proof.
  unfold open_door.
  repeat first [throws_step | apply throws_get_door_opener | apply throws_DoorOpener_open_door].
Qed.

Lemma throws_check_status : throws (check_status config).
Proof.
  unfold check_status, DoorOpener_check_session.
  repeat first [throws_step | apply throws_get_door_opener | apply throws_is_session_valid].
Qed.

Lemma throws_door_message success result : throws (door_message success result).
Proof. unfold door_message. repeat throws_step. Qed.

End Throws.

Section Handler.

Context {Env Json : Type} {ext : External Env Json}.
Variable config : Config.

Lemma new_events_app (w w' : World Env) (evs : list event) :
  log w' = (log w ++ evs)%list -> new_events w w' = evs.
Proof. intros H. unfold new_events. rewrite H. apply drop_app_length. Qed.

Lemma new_events_same (w : World Env) : new_events w w = [].
Proof. apply new_events_app. rewrite app_nil_r. reflexivity. Qed.

Lemma headers_get_find (hs : list (string * string)) (key dflt : string) :
  headers_get hs key dflt = default dflt (headers_find hs key).
Proof.
  induction hs as [| [k v] hs IH]; simpl; [reflexivity |].
  destruct (String.eqb (PyStr.lower k) (PyStr.lower key)); [reflexivity | exact IH].
Qed.

(** The handler, path by path. *)
Lemma receive_sms_unsigned request From Body (w : World Env) :
  validate_twilio_request request = false ->
  receive_sms config request From Body w
  = (Raise (HTTPException 403 "Invalid signature"), w).
Proof. intros H. unfold receive_sms. rewrite H. reflexivity. Qed.

Lemma receive_sms_stranger request From Body (w : World Env) :
  validate_twilio_request request = true ->
  is_phone_allowed config From = false ->
  receive_sms config request From Body w
  = (Return (mkResponse "" 200 "text/plain"), w).
Proof. intros Hv Ha. unfold receive_sms. rewrite Hv, Ha. reflexivity. Qed.

(** Past the two gates the handler runs [check_rate_limit] and continues
    from the world [w1] it leaves. *)
Lemma receive_sms_admitted request From Body (w : World Env) :
  validate_twilio_request request = true ->
  is_phone_allowed config From = true ->
  let ok := fst (check_rate_limit_at config (fst (datetime_now (env w))) From
                                     (rate_limit_data w)) in
  let w1 := snd (check_rate_limit config From w) in
  receive_sms config request From Body w =
  if negb ok
  then (Return (xml_response ("Rate limit exceeded. Max "
                              ++ str_of_Z (rate_limit_max_requests config)
                              ++ " requests per hour.")), w1)
  else if String.eqb (command_of Body) "door"
  then bind (open_door config)
            (fun sr => bind (door_message (fst sr) (snd sr))
                            (fun message => ret (xml_response message))) w1
  else if String.eqb (command_of Body) "status"
  then bind (check_status config)
            (fun status => ret (xml_response (status_message status))) w1
  else (Return (xml_response "Unknown command. Send 'door' to open."), w1).
Proof.
  intros Hv Ha ok w1. unfold receive_sms. rewrite Hv, Ha. simpl.
  rewrite run_bind. subst ok w1. rewrite check_rate_limit_run. simpl.
  destruct (fst (check_rate_limit_at config (fst (datetime_now (env w))) From
                                     (rate_limit_data w))); simpl; [| reflexivity].
  destruct (String.eqb (command_of Body) "door"); [reflexivity |].
  destruct (String.eqb (command_of Body) "status"); reflexivity.
Qed.

(** The "door" branch: [open_door] is entered first; nothing it or the
    reply does enters [check_status] or touches the limiter. *)
Lemma door_branch (w1 w' : World Env) (r : outcome Response) :
  bind (open_door config)
       (fun sr => bind (door_message (fst sr) (snd sr))
                       (fun message => ret (xml_response message))) w1 = (r, w') ->
  rate_limit_data w' = rate_limit_data w1 /\
  exists evs, log w' = (log w1 ++ Call_open_door :: evs)%list /\
              Forall (fun ev => door_alphabet ev = true) evs.
Proof.
  intros E. rewrite run_bind in E.
  destruct (open_door config w1) as [ro wo] eqn:Eo.
  apply open_door_events in Eo. destruct Eo as (Hr & evs & Hl & Hp).
  destruct ro as [sr | e].
  2:{ injection E as <- <-. eauto. }
  match type of E with
  | ?m wo = _ => assert (Hk : keeps (fun ev => door_alphabet ev = true) m)
  end.
  { assert (HP : forall ev, lowlevel ev = true -> door_alphabet ev = true).
    { intros ev H. unfold door_alphabet. rewrite (lowlevel_plumbing ev H). reflexivity. }
    repeat (first [keeps_step | solve [eauto with keeps]]). }
  destruct (Hk wo) as (Hr' & _ & _ & evs' & Hl' & Hp'). rewrite E in Hr', Hl'. wsimpl.
  split; [congruence |].
  exists (evs ++ evs')%list. split.
  - rewrite Hl', Hl, <- app_assoc. reflexivity.
  - apply Forall_app. auto.
Qed.

(** The "status" branch, likewise. *)
Lemma status_branch (w1 w' : World Env) (r : outcome Response) :
  bind (check_status config)
       (fun status => ret (xml_response (status_message status))) w1 = (r, w') ->
  rate_limit_data w' = rate_limit_data w1 /\
  exists evs, log w' = (log w1 ++ Call_check_status :: evs)%list /\
              Forall (fun ev => status_alphabet ev = true) evs.
Proof.
  intros E. rewrite run_bind in E.
  destruct (check_status config w1) as [ro wo] eqn:Eo.
  apply check_status_events in Eo. destruct Eo as (Hr & evs & Hl & Hp).
  destruct ro as [st | e]; injection E as <- <-; eauto.
Qed.




Lemma status_alphabet_no_door (evs : list event) :
  Forall (fun ev => status_alphabet ev = true) evs -> Call_open_door ∉ evs.
Proof.
  intros H Hin. rewrite Forall_forall in H. apply H in Hin. discriminate.
Qed.


(** What the handler logs, by the path it takes. *)
Lemma receive_sms_events request From Body (w w' : World Env) (r : outcome Response) :
  receive_sms config request From Body w = (r, w') ->
  w' = w /\ (validate_twilio_request request = false
             \/ is_phone_allowed config From = false)
  \/ validate_twilio_request request = true /\ is_phone_allowed config From = true /\
     rate_limit_data w' = rate_limit_data (snd (check_rate_limit config From w)) /\
     exists evs, log w' = (log w ++ Call_check_rate_limit From :: evs)%list /\
       (evs = [] /\ (fst (check_rate_limit config From w) = Return false
                     \/ command_of Body <> "door" /\ command_of Body <> "status")
        \/ fst (check_rate_limit config From w) = Return true /\
           (command_of Body = "door" /\
            (exists evs', evs = Call_open_door :: evs' /\
                          Forall (fun ev => door_alphabet ev = true) evs')
            \/ command_of Body = "status" /\
               (exists evs', evs = Call_check_status :: evs' /\
                             Forall (fun ev => status_alphabet ev = true) evs'))).
Proof.
  intros E.
  destruct (validate_twilio_request request) eqn:Hv.
  2:{ rewrite receive_sms_unsigned in E by assumption. injection E as <- <-. auto. }
  destruct (is_phone_allowed config From) eqn:Ha.
  2:{ rewrite receive_sms_stranger in E by assumption. injection E as <- <-. auto. }
  right. split; [reflexivity |]. split; [reflexivity |].
  rewrite receive_sms_admitted in E by assumption. cbv zeta in E.
  rewrite check_rate_limit_run in *. wsimpl.
  destruct (fst (check_rate_limit_at config (fst (datetime_now (env w))) From
                                     (rate_limit_data w))); simpl in E.
  2:{ injection E as <- <-. simpl. split; [reflexivity |]. exists [].
      split; [reflexivity |]. left. split; [reflexivity |]. left. reflexivity. }
  destruct (String.eqb_spec (command_of Body) "door") as [Hd | Hd].
  { apply door_branch in E. destruct E as (Hr & evs & Hl & Hp). wsimpl.
    split; [assumption |]. exists (Call_open_door :: evs). split.
    - rewrite Hl, <- app_assoc. reflexivity.
    - right. split; [reflexivity |]. left. eauto. }
  destruct (String.eqb_spec (command_of Body) "status") as [Hs | Hs].
  { apply status_branch in E. destruct E as (Hr & evs & Hl & Hp). wsimpl.
    split; [assumption |]. exists (Call_check_status :: evs). split.
    - rewrite Hl, <- app_assoc. reflexivity.
    - right. split; [reflexivity |]. right. eauto. }
  injection E as <- <-. simpl. split; [reflexivity |]. exists [].
  split; [reflexivity |]. left. split; [reflexivity |]. right. split; assumption.
Qed.

End Handler.

Section Webhook.

Context {Env Json : Type} {ext : External Env Json}.
Variable config : Config.

Lemma validate_iff_header (request : Request) :
  validate_twilio_request request = true
  <-> exists v, headers_find (headers request) "X-Twilio-Signature" = Some v /\ v <> "".
Proof.
  unfold validate_twilio_request. rewrite headers_get_find.
  destruct (headers_find (headers request) "X-Twilio-Signature") as [v |]; simpl.
  - destruct v; simpl; split.
    + discriminate.
    + intros (v & Hv & Hne). congruence.
    + intros _. eexists. split; [reflexivity | discriminate].
    + reflexivity.
  - split; [discriminate |]. intros (v & Hv & _). discriminate.
Qed.

Lemma validate_false_iff_header (request : Request) :
  validate_twilio_request request = false
  <-> headers_find (headers request) "X-Twilio-Signature" = None
      \/ headers_find (headers request) "X-Twilio-Signature" = Some "".
Proof.
  unfold validate_twilio_request. rewrite headers_get_find.
  destruct (headers_find (headers request) "X-Twilio-Signature") as [v |]; simpl.
  - destruct v; simpl; split; auto.
    + discriminate.
    + intros [H | H]; discriminate.
  - split; auto.
Qed.

(** Past the signature check the handler raises only what came from
    outside: never an [HTTPException]. *)
Lemma receive_sms_raises_foreign request From Body (w : World Env) (e : exn) :
  validate_twilio_request request = true ->
  fst (receive_sms config request From Body w) = Raise e ->
  foreign e = true.
Proof.
  intros Hv E.
  destruct (is_phone_allowed config From) eqn:Ha.
  2:{ rewrite receive_sms_stranger in E by assumption. discriminate. }
  rewrite receive_sms_admitted in E by assumption. cbv zeta in E.
  destruct (negb _); [discriminate |].
  destruct (String.eqb (command_of Body) "door").
  { revert E. apply throws_bind; [apply throws_open_door |].
    intros sr. apply throws_bind; [apply throws_door_message |].
    intros m. apply throws_ret. }
  destruct (String.eqb (command_of Body) "status"); [| discriminate].
  revert E. apply throws_bind; [apply throws_check_status |].
  intros st. apply throws_ret.
Qed.

(** C8.  [receive_sms] raises [HTTPException(403, "Invalid signature")]
    exactly when the request has no [X-Twilio-Signature] header or an empty
    one; [validate_twilio_request] returns [True] exactly when the header
    is present with a non-empty value, whatever that value, the URL and the
    other headers are: the signature is not checked against the token. *)
Theorem invalid_signature_exactly_when_header_missing
    (request : Request) (From Body : string) (w : World Env) :
  (fst (receive_sms config request From Body w)
     = Raise (HTTPException 403 "Invalid signature")
   <-> headers_find (headers request) "X-Twilio-Signature" = None
       \/ headers_find (headers request) "X-Twilio-Signature" = Some "")
  /\ (validate_twilio_request request = true
      <-> exists v, headers_find (headers request) "X-Twilio-Signature" = Some v
                    /\ v <> "")
  /\ (forall (sig : string) (others : list (string * string)) (u : string),
        sig <> "" ->
        validate_twilio_request (mkRequest (("X-Twilio-Signature", sig) :: others) u)
        = true).
Proof.
  split; [| split].
  - rewrite <- validate_false_iff_header. split.
    + intros E. destruct (validate_twilio_request request) eqn:Hv; [| reflexivity].
      apply receive_sms_raises_foreign in E; [discriminate | assumption].
    + intros Hv. rewrite receive_sms_unsigned by assumption. reflexivity.
  - apply validate_iff_header.
  - intros sig others u Hsig. apply validate_iff_header.
    exists sig. split; [reflexivity | assumption].
Qed.

(** C2.  A sender outside the allowlist leaves the world as it was: no
    call of [check_rate_limit], [open_door] or [check_status] is logged and
    [rate_limit_data] is unchanged; the handler returns the empty 200
    response (when the request has no signature the check that comes
    before the allowlist has already answered 403).  When [open_door] is
    entered, the sender is on the allowlist, and [check_rate_limit] was
    entered before it and returned [True]. *)
Theorem allowlist_then_rate_limit_then_dispatch
    (request : Request) (From Body : string) (w : World Env) :
  let r := fst (receive_sms config request From Body w) in
  let w' := snd (receive_sms config request From Body w) in
  (is_phone_allowed config From = false ->
     w' = w /\ new_events w w' = [] /\
     rate_limit_data w' = rate_limit_data w /\
     (validate_twilio_request request = true ->
        r = Return (mkResponse "" 200 "text/plain")) /\
     (validate_twilio_request request = false ->
        r = Raise (HTTPException 403 "Invalid signature")))
  /\ (Call_open_door ∈ new_events w w' ->
        is_phone_allowed config From = true /\
        fst (check_rate_limit config From w) = Return true /\
        exists evs, new_events w w'
                    = Call_check_rate_limit From :: Call_open_door :: evs).
Proof.
  intros r w'. subst r w'.
  destruct (receive_sms config request From Body w) as [r w'] eqn:E. simpl.
  split.
  - intros Ha. destruct (validate_twilio_request request) eqn:Hv.
    + rewrite receive_sms_stranger in E by assumption. injection E as <- <-.
      rewrite new_events_same.
      split; [reflexivity |]. split; [reflexivity |]. split; [reflexivity |].
      split; [intros _; reflexivity | discriminate].
    + rewrite receive_sms_unsigned in E by assumption. injection E as <- <-.
      rewrite new_events_same.
      split; [reflexivity |]. split; [reflexivity |]. split; [reflexivity |].
      split; [discriminate | intros _; reflexivity].
  - intros Hin. apply receive_sms_events in E.
    destruct E as [[-> _] | (Hv & Ha & _ & evs & Hl & Hcase)].
    { rewrite new_events_same in Hin. inversion Hin. }
    rewrite (new_events_app _ _ _ Hl) in *.
    destruct Hcase as [[-> _] | [Hok [[_ (evs' & -> & Hp)] | [_ (evs' & -> & Hp)]]]].
    + apply list_elem_of_singleton in Hin. discriminate.
    + eauto.
    + exfalso. apply elem_of_cons in Hin. destruct Hin as [Hin | Hin]; [discriminate |].
      apply elem_of_cons in Hin. destruct Hin as [Hin | Hin]; [discriminate |].
      exact (status_alphabet_no_door _ Hp Hin).
Qed.


End Webhook.

Section Limiter.

Context {Env Json : Type} {ext : External Env Json}.
Variable config : Config.

Lemma check_rate_limit_at_fst (now : Z) (phone : string) (d : gmap string (list Z)) :
  fst (check_rate_limit_at config now phone d)
  = negb (rate_limit_max_requests config
          <=? Z.of_nat (List.length (kept config now (default [] (d !! phone))))).
Proof.
  unfold check_rate_limit_at, kept.
  destruct (d !! phone) as [l |] eqn:Hd.
  - rewrite Hd. simpl. destruct (_ <=? _); reflexivity.
  - rewrite lookup_insert_eq. simpl. destruct (_ <=? _); reflexivity.
Qed.

Lemma check_rate_limit_at_self (now : Z) (phone : string) (d : gmap string (list Z)) :
  snd (check_rate_limit_at config now phone d) !! phone
  = Some (if fst (check_rate_limit_at config now phone d)
          then (kept config now (default [] (d !! phone)) ++ [now])%list
          else kept config now (default [] (d !! phone))).
Proof.
  unfold check_rate_limit_at, kept.
  destruct (d !! phone) as [l |] eqn:Hd.
  - rewrite Hd. simpl. destruct (_ <=? _); simpl; rewrite lookup_insert_eq; reflexivity.
  - rewrite lookup_insert_eq. simpl.
    destruct (_ <=? _); simpl; rewrite lookup_insert_eq; reflexivity.
Qed.

Lemma check_rate_limit_at_other (now : Z) (phone q : string) (d : gmap string (list Z)) :
  q <> phone ->
  snd (check_rate_limit_at config now phone d) !! q = d !! q.
Proof.
  intros Hq. unfold check_rate_limit_at.
  destruct (d !! phone) as [l |] eqn:Hd; simpl;
    destruct (_ <=? _); simpl; rewrite ?lookup_insert_ne by congruence; reflexivity.
Qed.





End Limiter.

Section ConfigFacts.

Lemma obind_Return {A B} (x : outcome A) (k : A -> outcome B) (b : B) :
  obind x k = Return b -> exists a, x = Return a /\ k a = Return b.
Proof. destruct x as [a | e]; simpl; [eauto | discriminate]. Qed.


End ConfigFacts.

Section LimiterClaims.

Context {Env Json : Type} {ext : External Env Json}.


(** C10.  [check_rate_limit] always returns.  When it returns [True] the
    caller's list is the pruned list with the reading of the clock appended
    once; when it returns [False] it is the pruned list, nothing appended;
    the lists of all other numbers are as before.  In the handler the
    timestamp is appended before the command runs, and whatever the command
    does (fail, or raise) leaves the limiter as that call left it. *)
Theorem quota_consumed_only_on_success
    (config : Config) (phone_number : string) (w : World Env) :
  let now := fst (datetime_now (env w)) in
  let pruned := kept config now (default [] (rate_limit_data w !! phone_number)) in
  let r := fst (check_rate_limit config phone_number w) in
  let w' := snd (check_rate_limit config phone_number w) in
  (r = Return true \/ r = Return false)
  /\ (r = Return true ->
        rate_limit_data w' !! phone_number = Some (pruned ++ [now])%list)
  /\ (r = Return false -> rate_limit_data w' !! phone_number = Some pruned)
  /\ (forall q, q <> phone_number -> rate_limit_data w' !! q = rate_limit_data w !! q)
  /\ (forall request Body,
        validate_twilio_request request = true ->
        is_phone_allowed config phone_number = true ->
        rate_limit_data (snd (receive_sms config request phone_number Body w))
        = rate_limit_data w').
Proof.
  intros now pruned r w'. subst r w'. rewrite check_rate_limit_run. simpl.
  fold now. split; [| split; [| split; [| split]]].
  - destruct (fst (check_rate_limit_at _ _ _ _)); auto.
  - intros H. injection H as H. rewrite check_rate_limit_at_self, H. reflexivity.
  - intros H. injection H as H. rewrite check_rate_limit_at_self, H. reflexivity.
  - intros q Hq. apply check_rate_limit_at_other. assumption.
  - intros request Body Hv Ha.
    destruct (receive_sms config request phone_number Body w) as [r w'] eqn:E.
    apply receive_sms_events in E.
    destruct E as [[_ [H | H]] | (_ & _ & Hr & _)]; [congruence | congruence |].
    simpl. rewrite Hr, check_rate_limit_run. reflexivity.
Qed.



End LimiterClaims.

Section Cookies.

Context {Env Json : Type} {ext : External Env Json}.
Variable config : Config.

Lemma run_write_file path data (w : World Env) :
  write_file path data w =
  (Return tt,
   mkWorld (env w)
           (<[path := mkFile data match fs w !! path with
                                  | Some f => f_mode f
                                  | None => Z.land 438 (Z.lnot (umask w))
                                  end]> (fs w))
           (umask w) (rate_limit_data w) (heap w) (_door_opener w)
           (log w ++ [Fs_write path data])).
Proof. reflexivity. Qed.

Lemma run_chmod path mode (w : World Env) (f : file) :
  fs w !! path = Some f ->
  chmod path mode w =
  (Return tt,
   mkWorld (env w) (<[path := mkFile (f_data f) mode]> (fs w))
           (umask w) (rate_limit_data w) (heap w) (_door_opener w)
           (log w ++ [Fs_chmod path mode])).
Proof.
  intros Hf. unfold chmod. rewrite run_bind. unfold emit at 1. wsimpl.
  rewrite Hf. reflexivity.
Qed.

(** [save_cookies] when [context.cookies()] returns [c]. *)
Lemma run_save_cookies ctx (w : World Env) (c : Json) (e1 : Env) :
  context_cookies ctx (env w) = (Ok c, e1) ->
  save_cookies config ctx w =
  (Return tt,
   mkWorld e1 (<[cookies_file config := mkFile (json_dump c) 384]> (fs w))
           (umask w) (rate_limit_data w) (heap w) (_door_opener w)
           (log w ++ [Pw_cookies ctx;
                      Fs_write (cookies_file config) (json_dump c);
                      Fs_chmod (cookies_file config) 384])).
Proof.
  intros Hc. unfold save_cookies. rewrite run_bind, run_extern, Hc.
  rewrite run_bind, run_write_file. wsimpl.
  erewrite run_chmod by (simpl; apply lookup_insert_eq). wsimpl.
  rewrite insert_insert_eq, <- !app_assoc. reflexivity.
Qed.

(** C4.  When [context.cookies()] returns [c], [save_cookies] returns, and
    afterwards the configured cookies file holds the JSON text of [c] with
    mode 0600 (384); no other file changed; the text was written first and
    the mode set next. *)
Theorem save_cookies_writes_json_with_mode_0600
    (ctx : handle) (w : World Env) (c : Json) (e1 : Env) :
  context_cookies ctx (env w) = (Ok c, e1) ->
  exists w',
    save_cookies config ctx w = (Return tt, w')
    /\ fs w' !! cookies_file config = Some (mkFile (json_dump c) (6 * 8 * 8))
    /\ (forall path, path <> cookies_file config -> fs w' !! path = fs w !! path)
    /\ new_events w w' = [Pw_cookies ctx;
                          Fs_write (cookies_file config) (json_dump c);
                          Fs_chmod (cookies_file config) (6 * 8 * 8)]
    /\ env w' = e1.
Proof.
  intros Hc. eexists. split; [apply run_save_cookies; exact Hc |].
  simpl. repeat split.
  - apply lookup_insert_eq.
  - intros path Hp. apply lookup_insert_ne. congruence.
  - apply new_events_app. reflexivity.
Qed.

Lemma load_cookies_missing ctx (w : World Env) :
  fs w !! cookies_file config = None ->
  load_cookies config ctx w = (Return false, w).
Proof.
  intros Hf. unfold load_cookies. rewrite run_bind.
  unfold cookies_exist, path_exists. rewrite Hf.
  rewrite bool_decide_eq_false_2 by (intros [x Hx]; discriminate). reflexivity.
Qed.

Lemma load_cookies_unparsable ctx (w : World Env) (f : file) :
  fs w !! cookies_file config = Some f ->
  json_load (f_data f) = None ->
  load_cookies config ctx w = (Return false, w).
Proof.
  intros Hf Hj. unfold load_cookies. rewrite run_bind.
  unfold cookies_exist, path_exists. rewrite Hf.
  rewrite bool_decide_eq_true_2 by eauto. simpl.
  unfold try_except. rewrite run_bind. unfold read_file. rewrite Hf.
  rewrite run_bind. unfold load_json. rewrite Hj. reflexivity.
Qed.

(** [load_cookies] on a file that parses: [add_cookies] decides. *)
Lemma load_cookies_parsed ctx (w : World Env) (f : file) (c : Json) :
  fs w !! cookies_file config = Some f ->
  json_load (f_data f) = Some c ->
  load_cookies config ctx w =
  match context_add_cookies ctx c (env w) with
  | (Ok _, e') =>
      (Return true,
       mkWorld e' (fs w) (umask w) (rate_limit_data w) (heap w) (_door_opener w)
               (log w ++ [Pw_add_cookies ctx]))
  | (Fail x, e') =>
      (Return false,
       mkWorld e' (fs w) (umask w) (rate_limit_data w) (heap w) (_door_opener w)
               (log w ++ [Pw_add_cookies ctx; Raised x]))
  end.
Proof.
  intros Hf Hj. unfold load_cookies. rewrite run_bind.
  unfold cookies_exist, path_exists. rewrite Hf.
  rewrite bool_decide_eq_true_2 by eauto. simpl.
  unfold try_except. rewrite run_bind. unfold read_file. rewrite Hf.
  rewrite run_bind. unfold load_json. rewrite Hj. unfold ret at 1.
  rewrite run_bind, run_extern.
  destruct (context_add_cookies ctx c (env w)) as [[[] | x] e']; reflexivity.
Qed.

(** C5.  When [json.load] reads back what [json.dump] wrote for [c],
    [context.cookies()] returns [c] and [add_cookies(c)] returns:
    [save_cookies] followed by [load_cookies] makes one call
    [add_cookies(c)], with exactly [c], and returns [True].  And
    [load_cookies] returns [False] and changes nothing when the file does
    not exist or does not parse. *)
Theorem cookies_round_trip
    (ctx ctx2 : handle) (w : World Env) (c : Json) (e1 e2 : Env) :
  json_load (json_dump c) = Some c ->
  context_cookies ctx (env w) = (Ok c, e1) ->
  context_add_cookies ctx2 c e1 = (Ok tt, e2) ->
  (exists w1 w2,
     save_cookies config ctx w = (Return tt, w1)
     /\ load_cookies config ctx2 w1 = (Return true, w2)
     /\ env w1 = e1 /\ env w2 = e2
     /\ new_events w1 w2 = [Pw_add_cookies ctx2]
     /\ fs w2 = fs w1)
  /\ (forall (w0 : World Env) ctx0,
        fs w0 !! cookies_file config = None ->
        load_cookies config ctx0 w0 = (Return false, w0))
  /\ (forall (w0 : World Env) ctx0 f,
        fs w0 !! cookies_file config = Some f ->
        json_load (f_data f) = None ->
        load_cookies config ctx0 w0 = (Return false, w0)).
Proof.
  intros Hj Hc Ha. split; [| split].
  - eexists. eexists. split; [apply run_save_cookies; exact Hc |].
    split.
    + erewrite load_cookies_parsed.
      * simpl. rewrite Ha. reflexivity.
      * simpl. apply lookup_insert_eq.
      * simpl. exact Hj.
    + simpl. repeat split. apply new_events_app. reflexivity.
  - intros w0 ctx0. apply load_cookies_missing.
  - intros w0 ctx0 f. apply load_cookies_unparsable.
Qed.

End Cookies.

Section ConfigClaims.



Lemma _get_required_spec (env : environ) (key : string) :
  (exists v, _get_required env key = Return v /\ env !! key = Some v /\ v <> "")
  \/ (exists msg, _get_required env key = Raise (ValueError msg) /\ missing env key).
Proof.
  unfold _get_required, missing.
  destruct (env !! key) as [[| a v] |]; simpl.
  - right. eauto.
  - left. eexists. repeat split. discriminate.
  - right. eauto.
Qed.







End ConfigClaims.

Section DoorOpenerClaims.

Context {Env Json : Type} {ext : External Env Json}.
Variable config : Config.







End DoorOpenerClaims.

Section SingleOpener.

Context {Env Json : Type} {ext : External Env Json}.
Variable config : Config.

Lemma launches_steady (evs : list event) : Forall steady evs -> launches evs = 0%nat.
Proof.
  induction 1 as [| ev l [Hev _] _ IH]; [reflexivity |].
  unfold launches in *. simpl.
  destruct (event_eq_dec ev Pw_launch); [contradiction | exact IH].
Qed.

Lemma lowlevel_steady (ev : event) : lowlevel ev = true -> steady ev.
Proof.
  destruct ev; simpl; intros H; try discriminate; (split; [discriminate | reflexivity]).
Qed.

Lemma plumbing_on_opener (ev : event) : plumbing ev = true -> on_opener 0 ev = true.
Proof. destruct ev; simpl; congruence. Qed.

(** Steady steps that keep the global and the number of objects keep the
    invariant. *)
Lemma single_opener_quiet (w w' : World Env) :
  single_opener w -> quiet steady w w' -> single_opener w'.
Proof.
  intros (Hn & Ho & Hg) (_ & Hd & Hh & evs & Hl & Hp).
  pose proof (launches_steady evs Hp) as Hz.
  unfold single_opener. rewrite Hl, Hd, launches_app, Hz, Nat.add_0_r.
  split; [exact Hn |]. split.
  - apply Forall_app. split; [exact Ho |].
    eapply Forall_impl; [exact Hp |]. intros ev [_ H]. exact H.
  - destruct (_door_opener w) as [g |].
    + destruct Hg as [-> Hlen]. split; [reflexivity | congruence].
    + destruct Hg as [Hnil Hz']. split; [| exact Hz'].
      rewrite Hnil in Hh. destruct (heap w'); [reflexivity | discriminate].
Qed.

(** One more steady event in the log keeps it too. *)
Lemma single_opener_emit (w : World Env) (ev : event) :
  steady ev -> single_opener w -> single_opener (snd (emit ev w)).
Proof.
  intros Hev Hw. apply (single_opener_quiet w); [exact Hw |].
  apply keeps_emit. exact Hev.
Qed.

(** [get_door_opener] keeps the invariant, and what it returns is object 0,
    stored in the global. *)
Lemma get_door_opener_single (w w' : World Env) (r : outcome nat) :
  single_opener w ->
  get_door_opener config w = (r, w') ->
  single_opener w' /\ _door_opener w' = Some 0%nat /\ (forall g, r = Return g -> g = 0%nat).
Proof.
  intros Hw E. destruct (_door_opener w) as [g |] eqn:Hg.
  - rewrite (get_door_opener_some config w g Hg) in E. injection E as <- <-.
    destruct Hw as (Hn & Ho & Hd). rewrite Hg in Hd. destruct Hd as [-> Hlen].
    split; [| split].
    + unfold single_opener. rewrite Hg. auto.
    + exact Hg.
    + intros g H. congruence.
  - destruct (get_door_opener_none config w w' r Hg E)
      as (_ & Hd & Hh & Hret & evs & Hl & Hp & Hle).
    destruct Hw as (Hn & Ho & Hw). rewrite Hg in Hw. destruct Hw as [Hnil Hz].
    rewrite Hnil in *. simpl in *.
    split; [| split; [exact Hd | exact Hret]].
    unfold single_opener. rewrite Hl, Hd, launches_app, Hz. simpl.
    split; [exact Hle |]. split; [| auto].
    apply Forall_app. split; [exact Ho |].
    eapply Forall_impl; [exact Hp |]. apply plumbing_on_opener.
Qed.

Lemma open_door_single (w : World Env) :
  single_opener w -> single_opener (snd (open_door config w)).
Proof.
  intros Hw. unfold open_door. rewrite run_bind.
  pose proof (single_opener_emit w Call_open_door) as He.
  destruct (emit Call_open_door w) as [[[] | e] w0] eqn:E0; [| discriminate].
  simpl in He. assert (Hw0 : single_opener w0) by (apply He; [split; [discriminate | reflexivity] | exact Hw]).
  rewrite run_bind.
  destruct (get_door_opener config w0) as [rg wg] eqn:Eg.
  destruct (get_door_opener_single w0 wg rg Hw0 Eg) as (Hwg & _ & Hret).
  destruct rg as [g | e]; [| exact Hwg].
  rewrite (Hret g eq_refl).
  apply (single_opener_quiet wg); [exact Hwg |].
  apply keeps_DoorOpener_open_door; [apply lowlevel_steady |].
  split; [discriminate | reflexivity].
Qed.

Lemma check_status_single (w : World Env) :
  single_opener w -> single_opener (snd (check_status config w)).
Proof.
  intros Hw. unfold check_status. rewrite run_bind.
  pose proof (single_opener_emit w Call_check_status) as He.
  destruct (emit Call_check_status w) as [[[] | e] w0] eqn:E0; [| discriminate].
  simpl in He. assert (Hw0 : single_opener w0) by (apply He; [split; [discriminate | reflexivity] | exact Hw]).
  rewrite run_bind.
  destruct (get_door_opener config w0) as [rg wg] eqn:Eg.
  destruct (get_door_opener_single w0 wg rg Hw0 Eg) as (Hwg & _ & Hret).
  destruct rg as [g | e]; [| exact Hwg].
  rewrite (Hret g eq_refl).
  apply (single_opener_quiet wg); [exact Hwg |].
  assert (HP : forall ev, lowlevel ev = true -> steady ev) by apply lowlevel_steady.
  assert (H0 : steady (Call_DoorOpener_check_session 0)) by (split; [discriminate | reflexivity]).
  match goal with
  | |- quiet steady wg (snd (?m wg)) => assert (Hk : keeps steady m); [| exact (Hk wg)]
  end.
  repeat (first [keeps_step | solve [eauto with keeps]]).
Qed.

Lemma check_rate_limit_single (phone : string) (w : World Env) :
  single_opener w -> single_opener (snd (check_rate_limit config phone w)).
Proof.
  intros (Hn & Ho & Hg). rewrite check_rate_limit_run. unfold single_opener. simpl.
  rewrite launches_app. simpl. rewrite Nat.add_0_r.
  split; [exact Hn |]. split; [| exact Hg].
  apply Forall_app. split; [exact Ho | repeat constructor].
Qed.

Lemma shutdown_single (w : World Env) :
  single_opener w -> single_opener (snd (shutdown_event w)).
Proof.
  intros Hw. unfold shutdown_event. rewrite run_bind.
  destruct (_door_opener w) as [g |]; simpl; [| exact Hw].
  apply (single_opener_quiet w); [exact Hw |].
  apply keeps_DoorOpener_stop. apply lowlevel_steady.
Qed.

Lemma receive_sms_single request From Body (w : World Env) :
  single_opener w -> single_opener (snd (receive_sms config request From Body w)).
Proof.
  intros Hw.
  destruct (validate_twilio_request request) eqn:Hv.
  2:{ rewrite receive_sms_unsigned by assumption. exact Hw. }
  destruct (is_phone_allowed config From) eqn:Ha.
  2:{ rewrite receive_sms_stranger by assumption. exact Hw. }
  rewrite receive_sms_admitted by assumption. cbv zeta.
  pose proof (check_rate_limit_single From w Hw) as Hw1.
  set (w1 := snd (check_rate_limit config From w)) in *. clearbody w1.
  destruct (negb _); [exact Hw1 |].
  destruct (String.eqb (command_of Body) "door").
  { rewrite run_bind. pose proof (open_door_single w1 Hw1) as Hwo.
    destruct (open_door config w1) as [[sr | e] wo]; simpl in Hwo; [| exact Hwo].
    apply (single_opener_quiet wo); [exact Hwo |].
    match goal with
    | |- quiet steady wo (snd (?m wo)) => assert (Hk : keeps steady m); [| exact (Hk wo)]
    end.
    assert (HP : forall ev, lowlevel ev = true -> steady ev) by apply lowlevel_steady.
    repeat (first [keeps_step | solve [eauto with keeps]]). }
  destruct (String.eqb (command_of Body) "status"); [| exact Hw1].
  rewrite run_bind. pose proof (check_status_single w1 Hw1) as Hws.
  destruct (check_status config w1) as [[st | e] ws]; simpl in Hws; exact Hws.
Qed.

Lemma perform_single (c : call) (w : World Env) :
  single_opener w -> single_opener (perform config c w).
Proof.
  intros Hw. destruct c as [request From Body | phone | | | |]; simpl.
  - apply receive_sms_single, Hw.
  - apply check_rate_limit_single, Hw.
  - apply open_door_single, Hw.
  - apply check_status_single, Hw.
  - destruct (get_door_opener config w) as [r w'] eqn:E.
    apply (get_door_opener_single w w' r Hw E).
  - apply shutdown_single, Hw.
Qed.

Lemma run_single (cs : list call) (w : World Env) :
  single_opener w -> single_opener (run config cs w).
Proof.
  revert w. induction cs as [| c cs IH]; intros w Hw; [exact Hw |].
  simpl. apply IH, perform_single, Hw.
Qed.

(** C7.  In every state the server reaches from its initial one: the
    browser was launched at most once; every call of [get_door_opener] that
    returns gives object 0 and leaves it in the global; once the global is
    set, [get_door_opener] returns it and changes nothing (so it launches
    nothing); [start] on an object whose browser is running changes
    nothing; every [open_door] and [check_session] method call so far ran
    on object 0; and at most one [DoorOpener] was ever created. *)
Theorem single_global_browser
    (e : Env) (files : gmap string file) (mask : Z) (calls : list call) :
  let w := run config calls (initial_world e files mask) in
  (launches (log w) <= 1)%nat
  /\ (forall g w', get_door_opener config w = (Return g, w') ->
        g = 0%nat /\ _door_opener w' = Some 0%nat
        /\ (launches (log w') <= 1)%nat)
  /\ (_door_opener w <> None -> get_door_opener config w = (Return 0%nat, w))
  /\ (forall self o b, heap w !! self = Some o -> browser o = Some b ->
        DoorOpener_start config self w = (Return tt, w))
  /\ Forall (fun ev => on_opener 0 ev = true) (log w)
  /\ (List.length (heap w) <= 1)%nat.
Proof.
  intros w.
  assert (Hw : single_opener w).
  { apply run_single. unfold single_opener, initial_world. simpl. auto. }
  clearbody w. pose proof Hw as (Hn & Ho & Hg).
  split; [exact Hn |]. split; [| split; [| split; [| split; [exact Ho |]]]].
  - intros g w' E. destruct (get_door_opener_single w w' (Return g) Hw E) as (Hw' & Hd & Hret).
    split; [apply Hret; reflexivity |]. split; [exact Hd |]. apply Hw'.
  - intros Hd. destruct (_door_opener w) as [g |] eqn:Hdo; [| contradiction].
    destruct Hg as [-> _]. apply get_door_opener_some. exact Hdo.
  - intros self o b. apply start_running.
  - destruct (_door_opener w); destruct Hg as [H1 H2]; [lia | rewrite H1; simpl; lia].
Qed.

End SingleOpener.

(* ===================================================================== *)
(** * The claims on concrete inputs *)
(* ===================================================================== *)

Section Instances.

Import Scenario.

Lemma Config_init_environ0 : Config_init environ0 = Return config0.
Proof. vm_compute. reflexivity. Qed.



(** Saving the cookies of the simulated context. *)
Lemma save_cookies_witness :
  let w := world0 (Sim.healthy 0) in
  context_cookies 0%nat (env w) = (Ok (Decimal.D7 Decimal.Nil), env w)
  /\ fs (snd (save_cookies config0 0%nat w)) !! "cookies.json"
     = Some (mkFile "7" 384).
Proof.
  intros w.
  assert (Hc : context_cookies 0%nat (env w) = (Ok (Decimal.D7 Decimal.Nil), env w))
    by reflexivity.
  split; [exact Hc |].
  destruct (save_cookies_writes_json_with_mode_0600 config0 0%nat w
              (Decimal.D7 Decimal.Nil) (env w) Hc) as (w' & E & Hf & _).
  rewrite E. exact Hf.
Defined.

(** Saving and loading back in the simulated context. *)
Lemma cookies_round_trip_witness :
  let w := world0 (Sim.healthy 0) in
  json_load (json_dump (Decimal.D7 Decimal.Nil)) = Some (Decimal.D7 Decimal.Nil)
  /\ context_cookies 0%nat (env w) = (Ok (Decimal.D7 Decimal.Nil), env w)
  /\ context_add_cookies 1%nat (Decimal.D7 Decimal.Nil) (env w) = (Ok tt, env w)
  /\ fst (load_cookies config0 1%nat (snd (save_cookies config0 0%nat w))) = Return true.
Proof.
  intros w.
  assert (Hj : json_load (json_dump (Decimal.D7 Decimal.Nil))
               = Some (Decimal.D7 Decimal.Nil)) by reflexivity.
  assert (Hc : context_cookies 0%nat (env w) = (Ok (Decimal.D7 Decimal.Nil), env w))
    by reflexivity.
  assert (Ha : context_add_cookies 1%nat (Decimal.D7 Decimal.Nil) (env w)
               = (Ok tt, env w)) by reflexivity.
  destruct (cookies_round_trip config0 0%nat 1%nat w (Decimal.D7 Decimal.Nil)
              (env w) (env w) Hj Hc Ha)
    as ((w1 & w2 & Es & El & _) & _).
  split; [exact Hj |]. split; [exact Hc |]. split; [exact Ha |].
  rewrite Es. simpl. rewrite El. reflexivity.
Defined.





Example unsigned_request_gets_403 :
  fst (receive_sms config0 unsigned phone "door" (world0 (Sim.healthy 0)))
  = Raise (HTTPException 403 "Invalid signature").
Proof. reflexivity. Qed.

Example stranger_gets_empty_200 :
  receive_sms config0 signed "+15550000000" "door" (world0 (Sim.healthy 0))
  = (Return (mkResponse "" 200 "text/plain"), world0 (Sim.healthy 0)).
Proof. vm_compute. reflexivity. Qed.

Example command_is_trimmed_and_lowered :
  command_of (String (ascii_of_nat 10) "  StAtUs ") = "status"
  /\ command_of "do or" = "do or".
Proof. split; reflexivity. Qed.

Example plus_alone_is_rejected :
  Config_init (<["ALLOWED_PHONE_NUMBERS" := "+15551230001,+"]> environ0)
  = Raise (ValueError "Phone number + contains invalid characters").
Proof. vm_compute. reflexivity. Qed.

Example door_reply_on_timeout :
  fst (receive_sms config0 signed phone "DOOR"
         (world0 (Sim.failing 0 (fun ev => match ev with
                                           | Pw_click _ _ => Some (TimeoutError "30000ms")
                                           | _ => None
                                           end))))
  = Return (mkResponse
      "<Response><Message>Failed to open door. Try again or check session.</Message></Response>"
      200 "application/xml").
Proof. vm_compute. reflexivity. Qed.

End Instances.

(* ===================================================================== *)
(** * Further properties of the code *)
(* ===================================================================== *)

Section LimiterMore.

Context {Env Json : Type} {ext : External Env Json}.
Variable config : Config.

Lemma perform_other_number (phone : string) (c : call) (w : World Env) :
  about phone c = false ->
  rate_limit_data (perform config c w) !! phone = rate_limit_data w !! phone.
Proof.
  intros Hc.
  destruct c as [request From Body | q | | | |]; simpl in *.
  - destruct (receive_sms config request From Body w) as [r w'] eqn:E.
    apply receive_sms_events in E. destruct E as [[-> _] | (_ & _ & Hr & _)]; [reflexivity |].
    simpl. rewrite Hr, check_rate_limit_run. simpl.
    apply check_rate_limit_at_other. apply String.eqb_neq in Hc. congruence.
  - rewrite check_rate_limit_run. simpl.
    apply check_rate_limit_at_other. apply String.eqb_neq in Hc. congruence.
  - destruct (open_door config w) as [r w'] eqn:E.
    apply open_door_events in E. destruct E as [Hr _]. simpl. rewrite Hr. reflexivity.
  - destruct (check_status config w) as [r w'] eqn:E.
    apply check_status_events in E. destruct E as [Hr _]. simpl. rewrite Hr. reflexivity.
  - destruct (get_door_opener config w) as [r w'] eqn:E.
    apply get_door_opener_calm in E. destruct E as [Hr _]. simpl. rewrite Hr. reflexivity.
  - unfold shutdown_event. rewrite run_bind. destruct (_door_opener w); simpl; [| reflexivity].
    destruct (keeps_DoorOpener_stop (fun _ => True) (fun _ _ => I) n w) as [Hr _].
    rewrite Hr. reflexivity.
Qed.

(** The limiter is per number.  Calls that do not consult it for
    [phone_number] (requests of other senders included) leave that
    number's list as it was, so the next decision for it is the one it
    would have been without them. *)
Theorem other_senders_do_not_consume_quota
    (phone_number : string) (calls : list call) (w : World Env) (now : Z) :
  Forall (fun c => about phone_number c = false) calls ->
  rate_limit_data (run config calls w) !! phone_number
  = rate_limit_data w !! phone_number
  /\ fst (check_rate_limit_at config now phone_number
            (rate_limit_data (run config calls w)))
     = fst (check_rate_limit_at config now phone_number (rate_limit_data w)).
Proof.
  intros Hcalls.
  assert (H : rate_limit_data (run config calls w) !! phone_number
              = rate_limit_data w !! phone_number).
  { revert w. induction Hcalls as [| c calls Hc _ IH]; intros w; [reflexivity |].
    simpl. fold (run config calls (perform config c w)).
    rewrite IH. apply perform_other_number. exact Hc. }
  split; [exact H |].
  rewrite !check_rate_limit_at_fst, H. reflexivity.
Qed.

(** The window slides.  When none of the sender's stored timestamps is
    later than the reading of the clock minus the window (one exactly a
    window old included) and the limit is positive, [check_rate_limit]
    returns [True] and the sender's list becomes the reading alone,
    however many timestamps it held. *)
Theorem quota_restored_after_window
    (phone_number : string) (w : World Env) :
  0 < rate_limit_max_requests config ->
  Forall (fun ts => ts <= cutoff_of config (fst (datetime_now (env w))))
         (default [] (rate_limit_data w !! phone_number)) ->
  fst (check_rate_limit config phone_number w) = Return true
  /\ rate_limit_data (snd (check_rate_limit config phone_number w)) !! phone_number
     = Some [fst (datetime_now (env w))].
Proof.
  intros Hmax Hold.
  assert (Hk : kept config (fst (datetime_now (env w)))
                    (default [] (rate_limit_data w !! phone_number)) = []).
  { unfold kept. induction Hold as [| ts l Hts _ IH]; [reflexivity |].
    rewrite filter_cons_False by lia. exact IH. }
  rewrite check_rate_limit_run. simpl.
  rewrite check_rate_limit_at_self, check_rate_limit_at_fst, Hk. simpl.
  assert (Hle : (rate_limit_max_requests config <=? Z.of_nat 0) = false)
    by (apply Z.leb_gt; simpl; lia).
  rewrite Hle. split; reflexivity.
Qed.

Lemma check_rate_limit_at_keys (now : Z) (phone q : string) (d : gmap string (list Z)) :
  is_Some (snd (check_rate_limit_at config now phone d) !! q) ->
  q = phone \/ is_Some (d !! q).
Proof.
  intros H. destruct (decide (q = phone)) as [-> | Hne]; [left; reflexivity |].
  right. rewrite check_rate_limit_at_other in H by assumption. exact H.
Qed.

(** Only allowlisted senders get an entry.  In every state reached from
    the initial one by requests and the other entry points, each key of
    [rate_limit_data] is on the allowlist: a stranger's request never makes
    the dictionary grow. *)
Theorem limiter_keys_are_allowlisted
    (e : Env) (files : gmap string file) (mask : Z) (calls : list call) (q : string) :
  Forall (fun c => from_outside c = true) calls ->
  is_Some (rate_limit_data (run config calls (initial_world e files mask)) !! q) ->
  q ∈ allowed_phone_numbers config.
Proof.
  intros Hcalls.
  assert (H0 : forall q, is_Some (rate_limit_data (initial_world e files mask) !! q) ->
                         q ∈ allowed_phone_numbers config).
  { intros q0 [l Hl]. simpl in Hl. rewrite lookup_empty in Hl. discriminate. }
  revert H0. generalize (initial_world e files mask). intros w H0. revert q.
  revert w H0. induction Hcalls as [| c calls Hc _ IH]; intros w H0 q; [apply H0 |].
  simpl. fold (run config calls (perform config c w)). apply IH.
  intros q0 Hq0.
  destruct c as [request From Body | phone | | | |]; try discriminate.
  - simpl in Hq0.
    destruct (receive_sms config request From Body w) as [r w'] eqn:E.
    apply receive_sms_events in E. destruct E as [[-> _] | (_ & Ha & Hr & _)]; [auto |].
    simpl in Hq0. rewrite Hr, check_rate_limit_run in Hq0. simpl in Hq0.
    apply check_rate_limit_at_keys in Hq0 as [-> | Hq0]; [| auto].
    unfold is_phone_allowed in Ha. apply bool_decide_eq_true in Ha. exact Ha.
  - apply H0. rewrite <- (perform_other_number q0 Do_open_door w eq_refl). exact Hq0.
  - apply H0. rewrite <- (perform_other_number q0 Do_check_status w eq_refl). exact Hq0.
  - apply H0. rewrite <- (perform_other_number q0 Do_get_door_opener w eq_refl). exact Hq0.
  - apply H0. rewrite <- (perform_other_number q0 Do_shutdown w eq_refl). exact Hq0.
Qed.

End LimiterMore.

Section AllowlistMore.










Lemma lstrip_plain (s : string) :
  PyStr.all_chars (fun c => negb (PyStr.isspace_char c)) s = true ->
  PyStr.lstrip s = s.
Proof.
  destruct s as [| c s]; simpl; [reflexivity |].
  intros H. apply andb_true_iff in H as [Hc _].
  apply negb_true_iff in Hc. rewrite Hc. reflexivity.
Qed.







(** What a constructed [Config] holds.  The four required strings are the
    environment's values and are not empty; the allowlist is not empty;
    [HOST] and [PORT] fall back to "0.0.0.0" and 8000 when unset; the
    cookies file and the two limits are fixed, whatever the environment
    says. *)
Theorem Config_fields (env : environ) (config : Config) :
  Config_init env = Return config ->
  env !! "TWILIO_ACCOUNT_SID" = Some (twilio_account_sid config)
  /\ env !! "TWILIO_AUTH_TOKEN" = Some (twilio_auth_token config)
  /\ env !! "AVIGILON_URL" = Some (avigilon_url config)
  /\ env !! "DOOR_BUTTON_TEXT" = Some (door_button_text config)
  /\ twilio_account_sid config <> "" /\ twilio_auth_token config <> ""
  /\ avigilon_url config <> "" /\ door_button_text config <> ""
  /\ allowed_phone_numbers config <> []
  /\ (env !! "HOST" = None -> host config = "0.0.0.0")
  /\ (env !! "PORT" = None -> port config = 8000)
  /\ cookies_file config = "cookies.json"
  /\ rate_limit_max_requests config = 10
  /\ rate_limit_window_seconds config = 3600.
Proof.
  unfold Config_init. intros H.
  apply obind_Return in H as (sid & Hsid & H).
  apply obind_Return in H as (token & Htok & H).
  apply obind_Return in H as (numbers_str & Hn & H).
  apply obind_Return in H as (allowed & Hp & H).
  apply obind_Return in H as (u & Hu & H).
  apply obind_Return in H as (text & Htxt & H).
  apply obind_Return in H as (p & Hport & H).
  injection H as <-. simpl.
  assert (Hreq : forall key v, _get_required env key = Return v ->
                               env !! key = Some v /\ v <> "").
  { intros key v Hk.
    destruct (_get_required_spec env key) as [(v' & Hv' & Hl & Hne) | (msg & Hm & _)];
      [| congruence].
    rewrite Hk in Hv'. injection Hv' as <-. auto. }
  destruct (Hreq _ _ Hsid), (Hreq _ _ Htok), (Hreq _ _ Hu), (Hreq _ _ Htxt).
  repeat (split; [assumption |]).
  split.
  { unfold _parse_phone_numbers in Hp. apply obind_Return in Hp as ([] & _ & Hp).
    injection Hp as <-. destruct numbers_str; simpl; [discriminate |].
    destruct (Ascii.eqb a ","); [discriminate |].
    destruct (PyStr.split "," numbers_str); discriminate. }
  split; [intros Hh; unfold getenv; rewrite Hh; reflexivity |].
  split; [| auto].
  intros Hpt. unfold parse_port, getenv in Hport. rewrite Hpt in Hport.
  vm_compute in Hport. congruence.
Qed.

End AllowlistMore.

Section Preserves.

Context {Env Json : Type} {ext : External Env Json}.
Variable config : Config.
Context {X : Type}.
Variable view : World Env -> X.

Lemma preserves_ret {A} (a : A) : preserves view (ret a : M Env A).
Proof. intros w. reflexivity. Qed.

Lemma preserves_raise {A} (e : exn) : preserves view (raise e : M Env A).
Proof. intros w. reflexivity. Qed.

Lemma preserves_bind {A B} (m : M Env A) (k : A -> M Env B) :
  preserves view m -> (forall a, preserves view (k a)) -> preserves view (bind m k).
Proof.
  intros Hm Hk w. rewrite run_bind. specialize (Hm w).
  destruct (m w) as [[a | e] w1]; simpl in *; [| exact Hm].
  rewrite Hk. exact Hm.
Qed.

Lemma preserves_try_except {A} (m : M Env A) (h : exn -> M Env A) :
  preserves view m -> (forall e, preserves view (h e)) -> preserves view (try_except m h).
Proof.
  intros Hm Hh w. unfold try_except. specialize (Hm w).
  destruct (m w) as [[a | e] w1]; simpl in *; [exact Hm |].
  rewrite Hh. exact Hm.
Qed.

Lemma preserves_try_finally {A} (m : M Env A) (c : M Env unit) :
  preserves view m -> preserves view c -> preserves view (try_finally m c).
Proof.
  intros Hm Hc w. unfold try_finally. specialize (Hm w).
  destruct (m w) as [r w1]. specialize (Hc w1).
  destruct (c w1) as [[[] | e] w2]; simpl in *; congruence.
Qed.

Lemma preserves_attempt {A} (m : M Env A) : preserves view m -> preserves view (attempt m).
Proof.
  intros Hm w. unfold attempt. specialize (Hm w). destruct (m w) as [r w1]. exact Hm.
Qed.

Lemma preserves_reader {A} (m : M Env A) :
  (forall w, snd (m w) = w) -> preserves view m.
Proof. intros H w. rewrite H. reflexivity. Qed.

Hypothesis Hstatic : static view.

Lemma preserves_emit (ev : event) : preserves view (emit ev : M Env unit).
Proof. intros w. destruct w. simpl. apply Hstatic. Qed.

Lemma preserves_extern {A} (ev : event) (op : Env -> reply A * Env) :
  preserves view (extern ev op).
Proof.
  intros w. rewrite run_extern. destruct w. simpl.
  destruct (op env0) as [[a | x] e1]; simpl; apply Hstatic.
Qed.

Lemma preserves_now : preserves view now_.
Proof.
  intros w. unfold now_. destruct w. simpl.
  destruct (datetime_now env0) as [t e1]. simpl. apply Hstatic.
Qed.

End Preserves.

(** One step of a [preserves] proof for code made of Playwright calls,
    trace entries and reads. *)
Ltac preserves_step H :=
  lazymatch goal with
  | |- preserves _ (bind _ _) => apply preserves_bind; [| intros ?]
  | |- preserves _ (ret _) => apply preserves_ret
  | |- preserves _ (raise _) => apply preserves_raise
  | |- preserves _ (try_except _ _) => apply preserves_try_except; [| intros ?]
  | |- preserves _ (try_finally _ _) => apply preserves_try_finally
  | |- preserves _ (attempt _) => apply preserves_attempt
  | |- preserves _ (emit _) => apply preserves_emit; exact H
  | |- preserves _ (extern _ _) => apply preserves_extern; exact H
  | |- preserves _ now_ => apply preserves_now; exact H
  | |- preserves _ (get_url _) => apply preserves_reader; reflexivity
  | |- preserves _ (cookies_exist _) => apply preserves_reader; reflexivity
  | |- preserves _ (path_exists _) => apply preserves_reader; reflexivity
  | |- preserves _ (read_file _) =>
      apply preserves_reader; let w := fresh in
      intros w; unfold read_file; destruct (fs w !! _); reflexivity
  | |- preserves _ (deref _) =>
      apply preserves_reader; let w := fresh in
      intros w; unfold deref; destruct (heap w !! _); reflexivity
  | |- preserves _ (if ?b then _ else _) => destruct b
  | |- preserves _ (match ?x with _ => _ end) => destruct x
  end.

Section BrowserOnly.

Context {Env Json : Type} {ext : External Env Json}.
Variable config : Config.
Context {X : Type}.
Variable view : World Env -> X.
Hypothesis Hstatic : static view.

(** The functions below reach the world only through Playwright, the
    clock and the trace: whatever a static view shows, they leave. *)
Lemma preserves_load_cookies ctx : preserves view (load_cookies config ctx).
Proof. unfold load_cookies, load_json. repeat preserves_step Hstatic. Qed.

Lemma preserves_is_session_valid ctx : preserves view (is_session_valid config ctx).
Proof. unfold is_session_valid. repeat preserves_step Hstatic. Qed.

Lemma preserves_DoorOpener_check_session self :
  preserves view (DoorOpener_check_session config self).
Proof.
  unfold DoorOpener_check_session.
  repeat first [apply preserves_is_session_valid | preserves_step Hstatic].
Qed.

Lemma preserves_DoorOpener_open_door self :
  preserves view (DoorOpener_open_door config self).
Proof.
  unfold DoorOpener_open_door, open_door_steps, open_door_except.
  repeat preserves_step Hstatic.
Qed.

Lemma preserves_door_message success result :
  preserves view (door_message success result).
Proof. unfold door_message. repeat preserves_step Hstatic. Qed.

End BrowserOnly.

Section FilesUntouched.

Context {Env Json : Type} {ext : External Env Json}.
Variable config : Config.

Lemma static_fs : static (fs : World Env -> gmap string file).
Proof. intros e f u d h g l e' l'. reflexivity. Qed.

Lemma static_inside : static (inside : World Env -> _).
Proof. intros e f u d h g l e' l'. reflexivity. Qed.

(** Starting the opener and using it reads the cookies file and never
    writes a file. *)
Lemma preserves_fs_start self : preserves fs (DoorOpener_start config self).
Proof.
  unfold DoorOpener_start.
  repeat first [ apply preserves_load_cookies; exact static_fs
               | solve [intros w; reflexivity]
               | preserves_step static_fs ].
Qed.

Lemma preserves_fs_get_door_opener : preserves fs (get_door_opener config).
Proof.
  unfold get_door_opener.
  apply preserves_bind; [intros w; reflexivity | intros g].
  destruct g; [apply preserves_ret |].
  apply preserves_bind; [intros w; reflexivity | intros r].
  apply preserves_bind; [intros w; reflexivity | intros _].
  apply preserves_bind; [apply preserves_fs_start | intros _; apply preserves_ret].
Qed.

Lemma preserves_fs_open_door : preserves fs (open_door config).
Proof.
  unfold open_door.
  apply preserves_bind; [apply preserves_emit, static_fs | intros _].
  apply preserves_bind; [apply preserves_fs_get_door_opener | intros g].
  apply preserves_DoorOpener_open_door, static_fs.
Qed.

Lemma preserves_fs_check_status : preserves fs (check_status config).
Proof.
  unfold check_status.
  apply preserves_bind; [apply preserves_emit, static_fs | intros _].
  apply preserves_bind; [apply preserves_fs_get_door_opener | intros g].
  apply preserves_bind; [apply preserves_DoorOpener_check_session, static_fs | intros v].
  repeat preserves_step static_fs.
Qed.

End FilesUntouched.

Section SessionMore.

Context {Env Json : Type} {ext : External Env Json}.
Variable config : Config.


(** [load_cookies] never raises. *)
Lemma load_cookies_returns ctx (w : World Env) :
  exists b, fst (load_cookies config ctx w) = Return b.
Proof.
  destruct (fs w !! cookies_file config) as [f |] eqn:Hf.
  - destruct (json_load (f_data f)) as [c |] eqn:Hj.
    + rewrite (load_cookies_parsed config ctx w f c Hf Hj).
      destruct (context_add_cookies ctx c (env w)) as [[[] | x] e']; eauto.
    + rewrite (load_cookies_unparsable config ctx w f Hf Hj). eauto.
  - rewrite (load_cookies_missing config ctx w Hf). eauto.
Qed.

(** [is_session_valid], path by path. *)
Lemma is_session_valid_cases ctx (w w' : World Env) (r : outcome bool) :
  is_session_valid config ctx w = (r, w') ->
  exists b evs,
    r = Return b /\ log w' = (log w ++ evs)%list
    /\ ((exists x, evs = [Pw_new_page ctx; Raised x] /\ b = false)
        \/ (exists p x, evs = [Pw_new_page ctx; Pw_goto p (avigilon_url config); Raised x]
                        /\ b = false)
        \/ (exists p x, evs = [Pw_new_page ctx; Pw_goto p (avigilon_url config);
                               Pw_title p; Raised x] /\ b = false)
        \/ (exists p x, evs = [Pw_new_page ctx; Pw_goto p (avigilon_url config);
                               Pw_title p; Pw_close p; Raised x] /\ b = false)
        \/ (exists p e1 e2,
              context_new_page ctx (env w) = (Ok p, e1)
              /\ page_goto p (avigilon_url config) 10000 e1 = (Ok tt, e2)
              /\ evs = [Pw_new_page ctx; Pw_goto p (avigilon_url config);
                        Pw_title p; Pw_close p]
              /\ b = negb (is_login_url (page_url p e2)))).
Proof.
  unfold is_session_valid, try_except. intros E.
  rewrite run_bind, run_extern in E.
  destruct (context_new_page ctx (env w)) as [[p | x] e1] eqn:Hn.
  2:{ injection E as <- <-. exists false. eexists. split; [reflexivity |].
      split; [reflexivity |]. left. eauto. }
  rewrite run_bind, run_extern in E. wsimpl.
  destruct (page_goto p (avigilon_url config) 10000 e1) as [[[] | x] e2] eqn:Hg.
  2:{ injection E as <- <-. exists false. eexists. split; [reflexivity |].
      split; [simpl; rewrite <- app_assoc; reflexivity |]. right. left. eauto. }
  rewrite run_bind in E. unfold get_url at 1 in E. wsimpl.
  rewrite run_bind, run_extern in E. wsimpl.
  destruct (page_title p e2) as [[title | x] e3].
  2:{ injection E as <- <-. exists false. eexists. split; [reflexivity |].
      split; [simpl; rewrite <- !app_assoc; reflexivity |]. right. right. left. eauto. }
  rewrite run_bind, run_extern in E. wsimpl.
  destruct (page_close p e3) as [[[] | x] e4].
  2:{ injection E as <- <-. exists false. eexists. split; [reflexivity |].
      split; [simpl; rewrite <- !app_assoc; reflexivity |].
      right. right. right. left. eauto. }
  exists (negb (is_login_url (page_url p e2))). eexists.
  split; [destruct (is_login_url (page_url p e2)); injection E as <- _; reflexivity |].
  split.
  { destruct (is_login_url (page_url p e2)); injection E as _ <-; simpl;
      rewrite <- !app_assoc; reflexivity. }
  right. right. right. right. exists p, e1, e2. auto.
Qed.

(** [is_session_valid] never raises and changes nothing inside the
    process.  It answers [True] only when the page was created, the
    navigation and the title call returned, the page was closed, and the
    URL shown after the navigation has neither "login" nor "signin" in it
    (in any case of letters).  When the navigation or the title call
    raises, it answers [False] and the page it created is not closed. *)
Theorem session_check_never_raises (ctx : handle) (w : World Env) :
  let r := fst (is_session_valid config ctx w) in
  let w' := snd (is_session_valid config ctx w) in
  inside w' = inside w
  /\ exists b, r = Return b
     /\ ((exists x, new_events w w' = [Pw_new_page ctx; Raised x] /\ b = false)
         \/ (exists p x,
               new_events w w' = [Pw_new_page ctx; Pw_goto p (avigilon_url config); Raised x]
               /\ b = false)
         \/ (exists p x,
               new_events w w' = [Pw_new_page ctx; Pw_goto p (avigilon_url config);
                                  Pw_title p; Raised x]
               /\ b = false)
         \/ (exists p x,
               new_events w w' = [Pw_new_page ctx; Pw_goto p (avigilon_url config);
                                  Pw_title p; Pw_close p; Raised x]
               /\ b = false)
         \/ (exists p e1 e2,
               context_new_page ctx (env w) = (Ok p, e1)
               /\ page_goto p (avigilon_url config) 10000 e1 = (Ok tt, e2)
               /\ new_events w w' = [Pw_new_page ctx; Pw_goto p (avigilon_url config);
                                     Pw_title p; Pw_close p]
               /\ b = negb (is_login_url (page_url p e2)))).
Proof.
  intros r w'. subst r w'.
  pose proof (preserves_is_session_valid config inside static_inside ctx w) as Hin.
  destruct (is_session_valid config ctx w) as [r w'] eqn:E. simpl in *.
  split; [exact Hin |].
  destruct (is_session_valid_cases ctx w w' r E) as (b & evs & -> & Hl & Hcases).
  exists b. split; [reflexivity |].
  rewrite (new_events_app _ _ _ Hl). exact Hcases.
Qed.

End SessionMore.

Section OpenerMore.

Context {Env Json : Type} {ext : External Env Json}.
Variable config : Config.

(** Module-level [open_door] on an opener without a browser or without a
    context: two trace entries and the answer, nothing else. *)
Lemma open_door_dormant (w : World Env) (r : nat) (o : DoorOpener) :
  _door_opener w = Some r -> heap w !! r = Some o ->
  browser o = None \/ context o = None ->
  open_door config w
  = (Return (false, "Browser not initialized"),
     mkWorld (env w) (fs w) (umask w) (rate_limit_data w) (heap w) (_door_opener w)
             (log w ++ [Call_open_door; Call_DoorOpener_open_door r])).
Proof.
  intros Hg Ho Hnone. unfold open_door. rewrite run_bind. unfold emit at 1.
  rewrite run_bind. erewrite get_door_opener_some by exact Hg.
  unfold DoorOpener_open_door. rewrite run_bind. unfold emit at 1.
  rewrite run_bind. unfold deref at 1. wsimpl. rewrite Ho.
  rewrite <- app_assoc.
  destruct Hnone as [Hb | Hc].
  - rewrite Hb. reflexivity.
  - rewrite Hc. destruct (browser o); reflexivity.
Qed.

Lemma dormant_static (w w' : World Env) :
  heap w' = heap w -> _door_opener w' = _door_opener w -> dormant w -> dormant w'.
Proof.
  intros Hh Hg (r & o & Hr & Ho & Hnone). exists r, o. rewrite Hh, Hg. auto.
Qed.

(** A dormant opener stays shut.  Once the global opener lacks a browser
    or a context, module-level [open_door] answers
    [(False, "Browser not initialized")] without a call into Playwright and
    leaves the opener as it is, so every later call does the same; an
    admitted "door" message is answered "Failed to open door. Try again or
    check session.". *)
Theorem dormant_opener_stays_shut (w : World Env) :
  dormant w ->
  (fst (open_door config w) = Return (false, "Browser not initialized")
   /\ dormant (snd (open_door config w))
   /\ no_browser_call (new_events w (snd (open_door config w)))
   /\ inside (snd (open_door config w)) = inside w)
  /\ (forall request From Body,
        validate_twilio_request request = true ->
        is_phone_allowed config From = true ->
        fst (check_rate_limit config From w) = Return true ->
        command_of Body = "door" ->
        fst (receive_sms config request From Body w)
        = Return (xml_response "Failed to open door. Try again or check session.")
        /\ dormant (snd (receive_sms config request From Body w))).
Proof.
  intros Hd. split.
  - destruct Hd as (r & o & Hr & Ho & Hnone).
    rewrite (open_door_dormant w r o Hr Ho Hnone). simpl.
    split; [reflexivity |]. split; [exists r, o; auto |].
    split; [| reflexivity].
    erewrite new_events_app by reflexivity. repeat constructor.
  - intros request From Body Hv Ha Hok Hc.
    rewrite receive_sms_admitted by assumption. cbv zeta.
    rewrite check_rate_limit_run in *. simpl in Hok. injection Hok as Hok.
    rewrite Hok, Hc. simpl.
    assert (Hd1 : dormant
              (mkWorld (snd (datetime_now (env w))) (fs w) (umask w)
                 (snd (check_rate_limit_at config (fst (datetime_now (env w))) From
                         (rate_limit_data w)))
                 (heap w) (_door_opener w) (log w ++ [Call_check_rate_limit From])))
      by (apply (dormant_static w); [reflexivity | reflexivity | exact Hd]).
    destruct Hd1 as (r & o & Hr & Ho & Hnone).
    rewrite run_bind, (open_door_dormant _ r o Hr Ho Hnone). simpl.
    split; [reflexivity |]. exists r, o. auto.
Qed.

(** The tail of [start], the loading of the saved session, never raises. *)
Lemma load_session_returns (c : handle) (w : World Env) :
  exists w1,
    bind (cookies_exist config)
         (fun e => if e then bind (load_cookies config c) (fun _ => ret tt) else ret tt) w
    = (Return tt, w1).
Proof.
  rewrite run_bind. unfold cookies_exist, path_exists. simpl.
  destruct (bool_decide _); [| eauto].
  rewrite run_bind. destruct (load_cookies_returns config c w) as [b Hb].
  destruct (load_cookies config c w) as [rl wl]. simpl in Hb. subst rl. eauto.
Qed.

(** [start] on a new object: when it raises, the object has no context. *)
Lemma start_fresh_raises (self : nat) (w w' : World Env) (e : exn) :
  heap w !! self = Some (mkDoorOpener None None) ->
  DoorOpener_start config self w = (Raise e, w') ->
  _door_opener w' = _door_opener w
  /\ exists o, heap w' !! self = Some o /\ context o = None.
Proof.
  intros Ho E. unfold DoorOpener_start in E. rewrite run_bind in E.
  unfold deref at 1 in E. rewrite Ho in E. simpl in E.
  rewrite run_bind, run_extern in E.
  destruct (sync_playwright_start (env w)) as [[[] | x] e1].
  2:{ injection E as _ <-. simpl. eauto. }
  rewrite run_bind, run_extern in E. wsimpl.
  destruct (chromium_launch true e1) as [[b | x] e2].
  2:{ injection E as _ <-. simpl. eauto. }
  rewrite run_bind in E. unfold set_browser at 1 in E.
  rewrite run_bind, run_extern in E. wsimpl.
  destruct (browser_new_context b e2) as [[c | x] e3].
  2:{ injection E as _ <-. simpl. split; [reflexivity |].
      eexists. rewrite list_lookup_alter_eq, Ho. simpl. split; reflexivity. }
  rewrite run_bind in E. unfold set_context at 1 in E. wsimpl.
  match type of E with
  | ?m ?w0 = _ => destruct (load_session_returns c w0) as [w1 H1]
  end.
  rewrite H1 in E. discriminate.
Qed.

(** A failed start is final.  When the first [get_door_opener] raises,
    because Playwright, the launch or the new context failed, the global
    already refers to the new object, which is left without a context:
    the opener is dormant, and no later call starts it again. *)
Theorem failed_start_is_final (w w' : World Env) (e : exn) :
  _door_opener w = None ->
  get_door_opener config w = (Raise e, w') ->
  dormant w'
  /\ get_door_opener config w' = (Return (List.length (heap w)), w').
Proof.
  intros Hg E.
  destruct (get_door_opener_none config w w' (Raise e) Hg E) as (_ & Hd & _).
  unfold get_door_opener in E. rewrite run_bind in E. rewrite Hg in E.
  rewrite run_bind in E. unfold DoorOpener_new at 1 in E.
  rewrite run_bind in E. rewrite run_bind in E.
  match type of E with
  | context [DoorOpener_start config ?self ?w0] =>
      destruct (DoorOpener_start config self w0) as [[[] | e'] ws] eqn:Es
  end; [discriminate |].
  injection E as _ <-.
  apply start_fresh_raises in Es.
  2:{ wsimpl. apply list_lookup_middle. reflexivity. }
  destruct Es as (_ & o & Ho & Hc).
  split.
  - exists (List.length (heap w)), o. auto.
  - apply get_door_opener_some. exact Hd.
Qed.

(** [stop], through [shutdown_event].  When the opener's browser closes,
    both fields are reset, the opener is dormant and a second shutdown
    does nothing.  When [browser.close()] raises, the exception propagates
    and the fields stay as they were. *)
Theorem shutdown_resets_the_opener
    (w : World Env) (r : nat) (o : DoorOpener) (b : handle) :
  _door_opener w = Some r -> heap w !! r = Some o -> browser o = Some b ->
  let w' := snd (shutdown_event w) in
  match browser_close b (env w) with
  | (Ok _, _) =>
      fst (shutdown_event w) = Return tt
      /\ heap w' !! r = Some (mkDoorOpener None None)
      /\ dormant w'
      /\ shutdown_event w' = (Return tt, w')
  | (Fail x, _) =>
      fst (shutdown_event w) = Raise (Playwright x)
      /\ heap w' = heap w
  end
  /\ _door_opener w' = Some r
  /\ fs w' = fs w.
Proof.
  intros Hg Ho Hb w'. subst w'.
  destruct (shutdown_event w) as [rs ws] eqn:E. simpl.
  unfold shutdown_event in E. rewrite run_bind in E. rewrite Hg in E.
  unfold DoorOpener_stop in E. rewrite run_bind in E.
  unfold deref at 1 in E. rewrite Ho, Hb in E.
  rewrite run_bind, run_extern in E.
  destruct (browser_close b (env w)) as [[[] | x] e1].
  - rewrite run_bind in E. unfold set_browser at 1, set_context in E. wsimpl.
    injection E as <- <-. simpl.
    assert (Hl : alter (fun o0 => mkDoorOpener (browser o0) None) r
                   (alter (fun o0 => mkDoorOpener None (context o0)) r (heap w)) !! r
                 = Some (mkDoorOpener None None)).
    { rewrite !list_lookup_alter_eq, Ho. reflexivity. }
    split; [| split; [exact Hg | reflexivity]].
    split; [reflexivity |]. split; [exact Hl |]. split.
    + exists r. eexists. simpl. split; [exact Hg |]. split; [exact Hl |]. left. reflexivity.
    + unfold shutdown_event. rewrite run_bind. simpl. rewrite Hg.
      unfold DoorOpener_stop. rewrite run_bind. unfold deref. simpl. rewrite Hl.
      reflexivity.
  - injection E as <- <-. simpl. auto.
Qed.

(** The "status" check cannot fail once the opener exists.  With the
    global set, [check_status] returns: [browser_running] tells whether
    the opener has a browser, [cookies_exist] whether the cookies file is
    there, and nothing inside the process changes.  An opener without a
    context reports [session_valid = False] without a call into
    Playwright. *)
Theorem check_status_reports
    (w : World Env) (r : nat) (o : DoorOpener) :
  _door_opener w = Some r -> heap w !! r = Some o ->
  exists st w',
    check_status config w = (Return st, w')
    /\ st_browser_running st = bool_decide (is_Some (browser o))
    /\ st_cookies_exist st = bool_decide (is_Some (fs w !! cookies_file config))
    /\ inside w' = inside w
    /\ (context o = None ->
          st_session_valid st = false /\ no_browser_call (new_events w w')).
Proof.
  intros Hg Ho. unfold check_status. rewrite run_bind. unfold emit at 1.
  rewrite run_bind. erewrite get_door_opener_some by exact Hg.
  rewrite run_bind. unfold DoorOpener_check_session at 1.
  rewrite run_bind. unfold emit at 1. rewrite run_bind. unfold deref at 1.
  wsimpl. rewrite Ho.
  destruct (context o) as [c |] eqn:Hc.
  - pose proof (preserves_is_session_valid config inside static_inside c) as Hin.
    match goal with
    | |- context [is_session_valid config c ?w0] =>
        specialize (Hin w0);
        destruct (is_session_valid config c w0) as [rv wv] eqn:Ev
    end.
    destruct (is_session_valid_cases config c _ wv rv Ev) as (v & evs & -> & Hl & _).
    unfold inside in Hin. simpl in Hin. injection Hin as Hfs Hum Hrl Hh Hd.
    rewrite run_bind. unfold deref. rewrite Hh, Ho.
    rewrite run_bind. unfold cookies_exist, path_exists. rewrite Hfs.
    eexists. eexists. split; [reflexivity |]. simpl.
    split; [reflexivity |]. split; [reflexivity |].
    split; [unfold inside; congruence | discriminate].
  - unfold ret at 1. rewrite run_bind. unfold deref. simpl. rewrite Ho.
    rewrite run_bind. unfold cookies_exist, path_exists. simpl.
    eexists. eexists. split; [reflexivity |]. simpl.
    split; [reflexivity |]. split; [reflexivity |]. split; [reflexivity |].
    intros _. split; [reflexivity |].
    erewrite new_events_app by (simpl; rewrite <- app_assoc; reflexivity).
    repeat constructor.
Qed.

Lemma alter_last {A} (f : A -> A) (l : list A) (x : A) :
  alter f (List.length l) (l ++ [x])%list = (l ++ [f x])%list.
Proof. induction l as [| y l IH]; simpl; [reflexivity | f_equal; exact IH]. Qed.

(** Loading the session at the end of [start]: it returns, changes
    nothing inside the process, and hands cookies to the browser only
    when the file is there and parses. *)
Lemma load_session_spec (c : handle) (w : World Env) :
  exists w1 evs,
    bind (cookies_exist config)
         (fun e => if e then bind (load_cookies config c) (fun _ => ret tt) else ret tt) w
    = (Return tt, w1)
    /\ inside w1 = inside w
    /\ log w1 = (log w ++ evs)%list
    /\ (Pw_add_cookies c ∈ evs ->
        exists f v, fs w !! cookies_file config = Some f /\ json_load (f_data f) = Some v).
Proof.
  rewrite run_bind. unfold cookies_exist, path_exists. cbv beta iota.
  destruct (fs w !! cookies_file config) as [f |] eqn:Hf.
  2:{ rewrite bool_decide_eq_false_2 by (intros [? ?]; discriminate).
      exists w, []. split; [reflexivity |]. split; [reflexivity |].
      split; [rewrite app_nil_r; reflexivity |].
      intros Hin. apply elem_of_nil in Hin. destruct Hin. }
  rewrite bool_decide_eq_true_2 by eauto. rewrite run_bind.
  destruct (json_load (f_data f)) as [v |] eqn:Hj.
  2:{ rewrite (load_cookies_unparsable config c w f Hf Hj).
      exists w, []. split; [reflexivity |]. split; [reflexivity |].
      split; [rewrite app_nil_r; reflexivity |].
      intros Hin. apply elem_of_nil in Hin. destruct Hin. }
  rewrite (load_cookies_parsed config c w f v Hf Hj).
  destruct (context_add_cookies c v (env w)) as [[[] | x] e'];
    (eexists; eexists; split; [reflexivity |]; split; [reflexivity |];
     split; [reflexivity | eauto]).
Qed.

(** The cookies file cannot keep the server from starting.  Once
    Playwright starts, the browser launches and the context is created,
    the first [get_door_opener] returns the new opener with both handles
    set, whether the cookies file is missing, unreadable as JSON or
    rejected by the browser; the files stay as they were, and cookies are
    handed to the browser only when the file is there and parses. *)
Theorem start_survives_bad_cookies
    (w : World Env) (e1 e2 e3 : Env) (b c : handle) :
  _door_opener w = None ->
  sync_playwright_start (env w) = (Ok tt, e1) ->
  chromium_launch true e1 = (Ok b, e2) ->
  browser_new_context b e2 = (Ok c, e3) ->
  exists w',
    get_door_opener config w = (Return (List.length (heap w)), w')
    /\ _door_opener w' = Some (List.length (heap w))
    /\ heap w' = (heap w ++ [mkDoorOpener (Some b) (Some c)])%list
    /\ fs w' = fs w
    /\ (Pw_add_cookies c ∈ new_events w w' ->
        exists f v, fs w !! cookies_file config = Some f /\ json_load (f_data f) = Some v).
Proof.
  intros Hg H1 H2 H3.
  unfold get_door_opener. rewrite run_bind. cbv beta iota. rewrite Hg.
  rewrite run_bind. unfold DoorOpener_new at 1. cbv beta iota.
  rewrite run_bind. cbv beta iota. rewrite run_bind.
  unfold DoorOpener_start. rewrite run_bind. unfold deref at 1. wsimpl.
  rewrite lookup_app_r by lia. rewrite Nat.sub_diag. cbn [lookup list_lookup browser].
  rewrite run_bind, run_extern. wsimpl. rewrite H1.
  rewrite run_bind, run_extern. wsimpl. rewrite H2.
  rewrite run_bind. unfold set_browser at 1. cbv beta iota.
  rewrite run_bind, run_extern. wsimpl. rewrite H3.
  rewrite run_bind. unfold set_context at 1. cbv beta iota. wsimpl.
  match goal with
  | |- context [bind (cookies_exist config) ?k ?w0] =>
      destruct (load_session_spec c w0) as (w1 & evs & E1 & Hin1 & Hlog & Hadd)
  end.
  rewrite E1. unfold ret. exists w1.
  unfold inside in Hin1. wsimpl. injection Hin1 as Hfs _ _ Hheap Hopener.
  split; [reflexivity |]. split; [exact Hopener |]. split.
  { rewrite Hheap, !alter_last. reflexivity. }
  split; [exact Hfs |].
  intros Hin. apply Hadd.
  rewrite (new_events_app w w1 ([Pw_start; Pw_launch; Pw_new_context b] ++ evs)) in Hin
    by (rewrite Hlog, <- !app_assoc; reflexivity).
  simpl in Hin.
  apply elem_of_cons in Hin as [Hin | Hin]; [discriminate |].
  apply elem_of_cons in Hin as [Hin | Hin]; [discriminate |].
  apply elem_of_cons in Hin as [Hin | Hin]; [discriminate |].
  exact Hin.
Qed.

End OpenerMore.

Section RepliesMore.

Context {Env Json : Type} {ext : External Env Json}.
Variable config : Config.

Lemma door_message_template success result (w w' : World Env) (message : string) :
  door_message success result w = (Return message, w') ->
  reply_template config message.
Proof.
  unfold door_message, reply_template. destruct success.
  - rewrite run_bind. unfold now_. destruct (datetime_now (env w)) as [t e1].
    intros H. injection H as <- _. right. left. eauto.
  - destruct (String.eqb result "session_expired"); intros H; injection H as <- _; auto 10.
Qed.

Lemma status_message_template (status : Status) :
  reply_template config (status_message status).
Proof.
  unfold status_message, reply_template.
  destruct (st_session_valid status); [auto 10 |].
  destruct (st_cookies_exist status); auto 10.
Qed.

(** Replies are templated.  Whenever the handler returns a response, its
    status is 200 and it is either the empty plain-text response given to a
    sender off the allowlist, or the TwiML of one of eight fixed messages
    (one of them carrying the time of day): neither the text of the
    incoming message nor the text of an exception is ever sent back. *)
Theorem replies_are_templated
    (request : Request) (From Body : string) (w w' : World Env) (resp : Response) :
  receive_sms config request From Body w = (Return resp, w') ->
  status_code resp = 200
  /\ (resp = mkResponse "" 200 "text/plain" /\ is_phone_allowed config From = false
      \/ exists message, resp = xml_response message /\ reply_template config message).
Proof.
  intros E.
  destruct (validate_twilio_request request) eqn:Hv.
  2:{ rewrite receive_sms_unsigned in E by assumption. discriminate. }
  destruct (is_phone_allowed config From) eqn:Ha.
  2:{ rewrite receive_sms_stranger in E by assumption. injection E as <- _. auto. }
  rewrite receive_sms_admitted in E by assumption. cbv zeta in E.
  assert (Hx : forall message, reply_template config message ->
            status_code (xml_response message) = 200
            /\ (xml_response message = mkResponse "" 200 "text/plain" /\ true = false
                \/ exists m, xml_response message = xml_response m
                             /\ reply_template config m)).
  { intros message Hm. split; [reflexivity |]. right. eauto. }
  destruct (negb _).
  { injection E as <- _. apply Hx. left. reflexivity. }
  destruct (String.eqb (command_of Body) "door").
  { rewrite run_bind in E. destruct (open_door config _) as [[sr | e] wo]; [| discriminate].
    rewrite run_bind in E.
    destruct (door_message (fst sr) (snd sr) wo) as [[message | e] wm] eqn:Em;
      [| discriminate].
    injection E as <- _. apply Hx. eapply door_message_template, Em. }
  destruct (String.eqb (command_of Body) "status").
  { rewrite run_bind in E. destruct (check_status config _) as [[st | e] ws]; [| discriminate].
    injection E as <- _. apply Hx, status_message_template. }
  injection E as <- _. apply Hx. unfold reply_template. auto 10.
Qed.

End RepliesMore.

Section ScriptsMore.

Context {Env Json : Type} {ext : External Env Json}.
Variable config : Config.

(** The [cookies_exist] flag of [check_status] is about the file as it was
    before the call. *)
Lemma check_status_cookies_flag (w w' : World Env) (st : Status) :
  check_status config w = (Return st, w') ->
  st_cookies_exist st = bool_decide (is_Some (fs w !! cookies_file config)).
Proof.
  unfold check_status. intros E. rewrite run_bind in E. unfold emit at 1 in E.
  rewrite run_bind in E.
  match type of E with
  | context [get_door_opener config ?w0] =>
      pose proof (preserves_fs_get_door_opener config w0) as Hg;
      destruct (get_door_opener config w0) as [[g | e] wg]; [| discriminate]
  end.
  rewrite run_bind in E.
  pose proof (preserves_DoorOpener_check_session config fs static_fs g wg) as Hs.
  destruct (DoorOpener_check_session config g wg) as [[v | e] wv]; [| discriminate].
  rewrite run_bind in E. unfold deref at 1 in E.
  destruct (heap wv !! g) as [o |]; [| discriminate].
  rewrite run_bind in E. unfold cookies_exist, path_exists in E.
  injection E as <- _. simpl in *. rewrite Hs, Hg. reflexivity.
Qed.

(** The self-test of [door.py].  When it exits at all, the status is 0 or
    1, and 0 exactly when [check_status] reported a cookies file and a
    valid session and [open_door] then returned success.  It enters
    [open_door] only when the cookies file exists. *)
Theorem door_main_exit_status (w w' : World Env) (code : Z) :
  door_main config w = (Return code, w') ->
  (code = 0 \/ code = 1)
  /\ (code = 0 <->
      exists st w1 message,
        check_status config w = (Return st, w1)
        /\ st_cookies_exist st = true /\ st_session_valid st = true
        /\ open_door config w1 = (Return (true, message), w'))
  /\ (Call_open_door ∈ new_events w w' ->
        is_Some (fs w !! cookies_file config)).
Proof.
  unfold door_main. intros E. rewrite run_bind in E.
  destruct (check_status config w) as [[st | e] w1] eqn:Es; [| discriminate].
  pose proof (check_status_cookies_flag _ _ _ Es) as Hflag.
  pose proof Es as Hev. apply check_status_events in Hev as (_ & evs & Hl & Hp).
  assert (Hquiet : w' = w1 -> Call_open_door ∈ new_events w w' -> False).
  { intros -> Hin. rewrite (new_events_app _ _ _ Hl) in Hin.
    apply elem_of_cons in Hin as [Hin | Hin]; [discriminate |].
    exact (status_alphabet_no_door _ Hp Hin). }
  destruct (st_cookies_exist st) eqn:Hc; simpl in E.
  2:{ injection E as <- <-. split; [auto |]. split.
      - split; [discriminate |]. intros (st' & w1' & m & H & Hc' & _).
        injection H as <- _. congruence.
      - intros Hin. exfalso. apply Hquiet; auto. }
  destruct (st_session_valid st) eqn:Hv; simpl in E.
  2:{ injection E as <- <-. split; [auto |]. split.
      - split; [discriminate |]. intros (st' & w1' & m & H & _ & Hv' & _).
        injection H as <- _. congruence.
      - intros Hin. exfalso. apply Hquiet; auto. }
  rewrite run_bind in E.
  destruct (open_door config w1) as [[[ok message] | e] w2] eqn:Eo; [| discriminate].
  assert (Hfile : is_Some (fs w !! cookies_file config)).
  { symmetry in Hflag. apply bool_decide_eq_true in Hflag. exact Hflag. }
  destruct ok; simpl in E; injection E as <- <-.
  - split; [auto |]. split; [| auto].
    split; [| reflexivity]. intros _. exists st, w1, message. auto.
  - split; [auto |]. split; [| auto].
    split; [discriminate |]. intros (st' & w1' & m & H & _ & _ & Ho).
    injection H as <- <-. rewrite Eo in Ho. discriminate.
Qed.

End ScriptsMore.

Section SetupMore.

Context {Env Json : Type} {ext : External Env Json} {term : Terminal Env}.
Variable config : Config.

Lemma run_outside {A} (op : Env -> reply A * Env) (w : World Env) :
  outside op w =
  match op (env w) with
  | (Ok a, e') =>
      (Return a, mkWorld e' (fs w) (umask w) (rate_limit_data w)
                         (heap w) (_door_opener w) (log w))
  | (Fail x, e') =>
      (Raise (Playwright x),
       mkWorld e' (fs w) (umask w) (rate_limit_data w)
               (heap w) (_door_opener w) (log w))
  end.
Proof. reflexivity. Qed.

(** The [try] block never raises; it cancels only after a count, a
    refusal and a browser that closed. *)
Lemma verify_button_cases (br pg : handle) (w w' : World Env) (r : outcome bool) :
  verify_button config br pg w = (r, w') ->
  fs w' = fs w
  /\ exists checks,
       log w' = (log w ++ Pw_count pg (door_button_text config) :: checks)%list
       /\ (r = Return true /\ checks = [Pw_browser_close br]
           \/ r = Return false
              /\ (checks = [] \/ (exists x, checks = [Raised x])
                  \/ exists x, checks = [Pw_browser_close br; Raised x])).
Proof.
  unfold verify_button, try_except. rewrite run_bind, run_extern.
  destruct (locator_count pg (door_button_text config) (env w)) as [[n | x] e1].
  2:{ intros E. injection E as <- <-. simpl. split; [reflexivity |].
      exists [Raised x]. split; [reflexivity |]. right. eauto. }
  destruct (0 <? n).
  { intros E. injection E as <- <-. simpl. split; [reflexivity |].
    exists []. split; [reflexivity |]. right. auto. }
  rewrite run_bind, run_outside. wsimpl.
  destruct (input "Save session anyway? (y/n): " e1) as [[answer | x] e2].
  2:{ intros E. injection E as <- <-. simpl. split; [reflexivity |].
      exists []. split; [reflexivity |]. right. auto. }
  destruct (negb (String.eqb (PyStr.lower answer) "y")).
  2:{ intros E. injection E as <- <-. simpl. split; [reflexivity |].
      exists []. split; [reflexivity |]. right. auto. }
  rewrite run_bind, run_extern. wsimpl.
  destruct (browser_close br e2) as [[[] | x] e3].
  - intros E. injection E as <- <-. simpl. split; [reflexivity |].
    exists [Pw_browser_close br]. split; [rewrite <- app_assoc; reflexivity |]. left. auto.
  - intros E. injection E as <- <-. simpl. split; [reflexivity |].
    exists [Pw_browser_close br; Raised x].
    split; [rewrite <- app_assoc; reflexivity |]. right. eauto.
Qed.

(** The return values of the setup.  [True] is returned only after the
    cookies of the context were written to the configured file with mode
    0600 and the browser was closed; [False] only after a count of the
    button, with nothing written, nothing raised and the browser closed.
    The saving also follows a count that raised and a refusal after which
    the browser failed to close. *)
Theorem manual_authenticate_returns (w w' : World Env) (b : bool) :
  manual_authenticate config w = (Return b, w') ->
  exists browser context page,
    if b then
      exists cookies checks,
        fs w' = <[cookies_file config := mkFile (json_dump cookies) 384]> (fs w)
        /\ new_events w w'
           = (login_trace config browser context page
              ++ Pw_count page (door_button_text config) :: checks
              ++ saving_trace config browser context cookies)%list
        /\ (checks = [] \/ (exists x, checks = [Raised x])
            \/ exists x, checks = [Pw_browser_close browser; Raised x])
    else
      fs w' = fs w
      /\ new_events w w'
         = (login_trace config browser context page
            ++ [Pw_count page (door_button_text config);
                Pw_browser_close browser])%list.
Proof.
  unfold manual_authenticate. rewrite run_bind, run_extern.
  destruct (sync_playwright_start (env w)) as [[[] | x] e1]; [| discriminate].
  unfold try_finally.
  match goal with |- context [bind ?m ?k ?w1] =>
    destruct (bind m k w1) as [r w2] eqn:Eb end.
  rewrite run_outside.
  destruct (sync_playwright_exit (env w2)) as [[[] | x] e9]; [| discriminate].
  intros E. injection E as -> <-. cbn [fs log].
  rewrite run_bind, run_extern in Eb. wsimpl.
  destruct (chromium_launch false e1) as [[br | x] e2]; [| discriminate].
  rewrite run_bind, run_extern in Eb. wsimpl.
  destruct (browser_new_context br e2) as [[ctx | x] e3]; [| discriminate].
  rewrite run_bind, run_extern in Eb. wsimpl.
  destruct (context_new_page ctx e3) as [[pg | x] e4]; [| discriminate].
  rewrite run_bind, run_extern in Eb. wsimpl.
  destruct (page_goto pg (avigilon_url config) 30000 e4) as [[[] | x] e5]; [| discriminate].
  rewrite run_bind, run_outside in Eb. wsimpl.
  destruct (input "Press ENTER when logged in..." e5) as [[line | x] e6]; [| discriminate].
  rewrite run_bind in Eb.
  match type of Eb with context [verify_button config br pg ?w0] =>
    destruct (verify_button config br pg w0) as [rv wv] eqn:Ev end.
  apply verify_button_cases in Ev as (Hfs & checks & Hlog & Hcase). wsimpl.
  exists br, ctx, pg.
  destruct Hcase as [[-> ->] | [-> Hchecks]].
  - injection Eb as <- <-. split; [exact Hfs |].
    apply new_events_app. rewrite Hlog, <- !app_assoc. reflexivity.
  - rewrite run_bind in Eb.
    destruct (context_cookies ctx (env wv)) as [[c | x] e7] eqn:Hc.
    2:{ unfold save_cookies in Eb. rewrite run_bind, run_extern, Hc in Eb. discriminate. }
    rewrite (run_save_cookies config ctx wv c e7 Hc) in Eb.
    rewrite run_bind, run_extern in Eb. wsimpl.
    destruct (browser_close br e7) as [[[] | x] e8]; [| discriminate].
    injection Eb as <- <-. exists c, checks. cbn [fs log].
    split; [rewrite Hfs; reflexivity |]. split; [| exact Hchecks].
    apply new_events_app. rewrite Hlog, <- !app_assoc. reflexivity.
Qed.

(** A refusal does not always prevent the saving: when no button is found,
    the user answers something other than [y], and the browser then fails
    to close, the exception is swallowed and the cookies are written all
    the same; the function does not return [False]. *)
Theorem refusal_overridden_when_close_fails
    (w : World Env) (e1 e2 e3 e4 e5 e6 e7 e8 e9 e10 : Env)
    (br ctx pg : handle) (line answer : string) (n : Z) (x : pw_exn) (c : Json) :
  sync_playwright_start (env w) = (Ok tt, e1) ->
  chromium_launch false e1 = (Ok br, e2) ->
  browser_new_context br e2 = (Ok ctx, e3) ->
  context_new_page ctx e3 = (Ok pg, e4) ->
  page_goto pg (avigilon_url config) 30000 e4 = (Ok tt, e5) ->
  input "Press ENTER when logged in..." e5 = (Ok line, e6) ->
  locator_count pg (door_button_text config) e6 = (Ok n, e7) ->
  n <= 0 ->
  input "Save session anyway? (y/n): " e7 = (Ok answer, e8) ->
  PyStr.lower answer <> "y" ->
  browser_close br e8 = (Fail x, e9) ->
  context_cookies ctx e9 = (Ok c, e10) ->
  fst (manual_authenticate config w) <> Return false
  /\ fs (snd (manual_authenticate config w))
     = <[cookies_file config := mkFile (json_dump c) 384]> (fs w).
Proof.
  intros H1 H2 H3 H4 H5 H6 H7 Hn H8 Ha H9 H10.
  assert (Hv : forall w0, env w0 = e6 ->
            verify_button config br pg w0 =
            (Return false,
             mkWorld e9 (fs w0) (umask w0) (rate_limit_data w0) (heap w0)
                     (_door_opener w0)
                     ((log w0 ++ [Pw_count pg (door_button_text config)])
                      ++ [Pw_browser_close br; Raised x]))).
  { intros w0 Hw0. unfold verify_button, try_except.
    rewrite run_bind, run_extern, Hw0, H7.
    assert (Hlt : (0 <? n) = false) by (apply Z.ltb_ge; exact Hn). rewrite Hlt.
    rewrite run_bind, run_outside. wsimpl. rewrite H8.
    apply String.eqb_neq in Ha. rewrite Ha. cbn [negb].
    rewrite run_bind, run_extern. wsimpl. rewrite H9. reflexivity. }
  unfold manual_authenticate. rewrite run_bind, run_extern, H1.
  unfold try_finally.
  rewrite run_bind, run_extern. wsimpl. rewrite H2.
  rewrite run_bind, run_extern. wsimpl. rewrite H3.
  rewrite run_bind, run_extern. wsimpl. rewrite H4.
  rewrite run_bind, run_extern. wsimpl. rewrite H5.
  rewrite run_bind, run_outside. wsimpl. rewrite H6.
  rewrite run_bind, Hv by reflexivity.
  rewrite run_bind.
  erewrite run_save_cookies by (cbn [env]; exact H10).
  rewrite run_bind, run_extern. wsimpl.
  destruct (browser_close br e10) as [[[] | y] e11]; unfold outside, ret; wsimpl;
    destruct (sync_playwright_exit e11) as [[[] | z] e12]; simpl;
    (split; [discriminate | reflexivity]).
Qed.

End SetupMore.

(* ===================================================================== *)
(** * The further properties on concrete inputs *)
(* ===================================================================== *)

Section InstancesMore.

Import Scenario.

(** A request of the second number and a status check leave the first
    number without an entry. *)
Lemma other_senders_witness :
  let calls := [Do_receive_sms signed "+15551230002" "door"; Do_check_status] in
  Forall (fun c => about phone c = false) calls
  /\ rate_limit_data (run config0 calls (world0 (Sim.healthy 0))) !! phone = None.
Proof.
  intros calls.
  assert (H : Forall (fun c => about phone c = false) calls)
    by (repeat constructor).
  split; [exact H |].
  destruct (other_senders_do_not_consume_quota config0 phone calls
              (world0 (Sim.healthy 0)) 5 H) as [Hd _].
  rewrite Hd. reflexivity.
Defined.

(** Two requests of more than an hour ago do not count. *)
Lemma quota_restored_witness :
  0 < rate_limit_max_requests config0
  /\ rate_limit_data Desk.long_ago !! phone = Some [1; 2]
  /\ rate_limit_data (snd (check_rate_limit config0 phone Desk.long_ago)) !! phone
     = Some [4000000000].
Proof.
  assert (Hmax : 0 < rate_limit_max_requests config0) by (simpl; lia).
  assert (Hd : rate_limit_data Desk.long_ago !! phone = Some [1; 2])
    by (vm_compute; reflexivity).
  assert (Hold : Forall (fun ts => ts <= cutoff_of config0
                                           (fst (datetime_now (env Desk.long_ago))))
                        (default [] (rate_limit_data Desk.long_ago !! phone))).
  { rewrite Hd. repeat constructor; vm_compute; discriminate. }
  split; [exact Hmax |]. split; [exact Hd |].
  destruct (quota_restored_after_window config0 phone Desk.long_ago Hmax Hold) as [_ H].
  exact H.
Defined.

(** After a request of an allowlisted sender and one of a stranger, the
    sender has an entry. *)
Lemma limiter_keys_witness :
  let calls := [Do_receive_sms signed phone "status";
                Do_receive_sms signed "+19990000000" "door"] in
  Forall (fun c => from_outside c = true) calls
  /\ is_Some (rate_limit_data (run config0 calls (initial_world (Sim.healthy 0) ∅ 18))
              !! phone)
  /\ phone ∈ allowed_phone_numbers config0.
Proof.
  intros calls.
  assert (H : Forall (fun c => from_outside c = true) calls) by (repeat constructor).
  assert (Hs : is_Some (rate_limit_data
                          (run config0 calls (initial_world (Sim.healthy 0) ∅ 18))
                        !! phone))
    by (eexists; vm_compute; reflexivity).
  split; [exact H |]. split; [exact Hs |].
  exact (limiter_keys_are_allowlisted config0 (Sim.healthy 0) ∅ 18 calls phone H Hs).
Defined.


(** The configuration of [environ0], which sets no port. *)
Lemma Config_fields_witness :
  Config_init environ0 = Return config0 /\ port config0 = 8000.
Proof.
  split; [exact Config_init_environ0 |].
  destruct (Config_fields environ0 config0 Config_init_environ0)
    as (_ & _ & _ & _ & _ & _ & _ & _ & _ & _ & Hp & _).
  apply Hp. vm_compute. reflexivity.
Defined.

(** The opener after a launch that failed. *)
Lemma dormant_opener_witness :
  let w := started Desk.no_launch in
  dormant w
  /\ fst (open_door config0 w) = Return (false, "Browser not initialized").
Proof.
  intros w.
  assert (Hd : dormant w).
  { exists 0%nat, (mkDoorOpener None None).
    split; [reflexivity |]. split; [reflexivity |]. left. reflexivity. }
  split; [exact Hd |].
  destruct (dormant_opener_stays_shut config0 w Hd) as [[H _] _].
  exact H.
Defined.

(** A launch that fails, and the call after it. *)
Lemma failed_start_witness :
  let w := world0 Desk.no_launch in
  let w' := started Desk.no_launch in
  get_door_opener config0 w
  = (Raise (Playwright (Error "Executable doesn't exist")), w')
  /\ get_door_opener config0 w' = (Return 0%nat, w').
Proof.
  intros w w'.
  assert (Hn : _door_opener w = None) by reflexivity.
  assert (E : get_door_opener config0 w
              = (Raise (Playwright (Error "Executable doesn't exist")), w'))
    by (vm_compute; reflexivity).
  split; [exact E |].
  destruct (failed_start_is_final config0 w w' _ Hn E) as [_ H].
  exact H.
Defined.

(** Shutting down a started opener. *)
Lemma shutdown_witness :
  let w := started (Sim.healthy 0) in
  heap w !! 0%nat = Some (mkDoorOpener (Some 0%nat) (Some 1%nat))
  /\ _door_opener (snd (shutdown_event w)) = Some 0%nat.
Proof.
  intros w.
  assert (Hg : _door_opener w = Some 0%nat) by reflexivity.
  assert (Ho : heap w !! 0%nat = Some (mkDoorOpener (Some 0%nat) (Some 1%nat)))
    by reflexivity.
  split; [exact Ho |].
  pose proof (shutdown_resets_the_opener w 0%nat _ 0%nat Hg Ho eq_refl) as H.
  cbv zeta in H. destruct H as (_ & H & _). exact H.
Defined.

(** The status of a started opener. *)
Lemma check_status_witness :
  let w := started (Sim.healthy 0) in
  heap w !! 0%nat = Some (mkDoorOpener (Some 0%nat) (Some 1%nat))
  /\ exists st w',
       check_status config0 w = (Return st, w') /\ st_browser_running st = true.
Proof.
  intros w.
  assert (Hg : _door_opener w = Some 0%nat) by reflexivity.
  assert (Ho : heap w !! 0%nat = Some (mkDoorOpener (Some 0%nat) (Some 1%nat)))
    by reflexivity.
  split; [exact Ho |].
  destruct (check_status_reports config0 w 0%nat _ Hg Ho) as (st & w' & E & Hb & _).
  exists st, w'. split; [exact E |]. rewrite Hb. reflexivity.
Defined.

(** A message that is no command. *)
Lemma replies_witness :
  let w := world0 (Sim.healthy 0) in
  let rw := receive_sms config0 signed phone "hello" w in
  fst rw = Return (xml_response "Unknown command. Send 'door' to open.")
  /\ status_code (xml_response "Unknown command. Send 'door' to open.") = 200.
Proof.
  intros w rw.
  assert (Hr : fst rw = Return (xml_response "Unknown command. Send 'door' to open."))
    by (vm_compute; reflexivity).
  split; [exact Hr |].
  assert (E : receive_sms config0 signed phone "hello" w
              = (Return (xml_response "Unknown command. Send 'door' to open."), snd rw)).
  { rewrite <- Hr. apply surjective_pairing. }
  destruct (replies_are_templated config0 signed phone "hello" w _ _ E) as [H _].
  exact H.
Defined.

(** The self-test with saved cookies on a healthy portal. *)
Lemma door_main_witness :
  let w := Desk.with_cookies in
  fst (door_main config0 w) = Return 0
  /\ exists st w1 message,
       check_status config0 w = (Return st, w1)
       /\ st_cookies_exist st = true /\ st_session_valid st = true
       /\ open_door config0 w1 = (Return (true, message), snd (door_main config0 w)).
Proof.
  intros w.
  assert (Hr : fst (door_main config0 w) = Return 0) by (vm_compute; reflexivity).
  split; [exact Hr |].
  assert (E : door_main config0 w = (Return 0, snd (door_main config0 w))).
  { rewrite <- Hr. apply surjective_pairing. }
  destruct (door_main_exit_status config0 w _ 0 E) as (_ & [H _] & _).
  exact (H eq_refl).
Defined.

(** No button, and a user who answers "n". *)
Lemma manual_authenticate_witness :
  let w := world0 Desk.no_button in
  let rw := manual_authenticate (term := Desk.answering "n") config0 w in
  fst rw = Return false /\ fs (snd rw) = fs w.
Proof.
  intros w rw.
  assert (Hr : fst rw = Return false) by (vm_compute; reflexivity).
  split; [exact Hr |].
  assert (E : manual_authenticate (term := Desk.answering "n") config0 w
              = (Return false, snd rw)).
  { rewrite <- Hr. apply surjective_pairing. }
  destruct (manual_authenticate_returns (term := Desk.answering "n") config0 w _ false E)
    as (br & ctx & pg & H & _).
  exact H.
Defined.

(** No button, a user who answers "n", and a browser that fails to close:
    the cookies are saved. *)
Lemma refusal_overridden_witness :
  let w := world0 Desk.stuck_browser in
  PyStr.lower "n" <> "y"
  /\ browser_close 0%nat (Desk.stuck_after 3) = (Fail (Error "Target closed"), Desk.stuck_after 3)
  /\ fs (snd (manual_authenticate (term := Desk.answering "n") config0 w)) !! "cookies.json"
     = Some (mkFile "7" 384).
Proof.
  intros w.
  assert (Ha : PyStr.lower "n" <> "y") by discriminate.
  assert (Hc : browser_close 0%nat (Desk.stuck_after 3)
               = (Fail (Error "Target closed"), Desk.stuck_after 3)) by reflexivity.
  split; [exact Ha |]. split; [exact Hc |].
  assert (Hn : 0 <= 0) by lia.
  assert (H1 : sync_playwright_start (env w) = (Ok tt, Desk.stuck_after 0))
    by reflexivity.
  assert (H2 : chromium_launch false (Desk.stuck_after 0) = (Ok 0%nat, Desk.stuck_after 1))
    by reflexivity.
  assert (H3 : browser_new_context 0%nat (Desk.stuck_after 1)
               = (Ok 1%nat, Desk.stuck_after 2)) by reflexivity.
  assert (H4 : context_new_page 1%nat (Desk.stuck_after 2)
               = (Ok 2%nat, Desk.stuck_after 3)) by reflexivity.
  assert (H5 : page_goto 2%nat (avigilon_url config0) 30000 (Desk.stuck_after 3)
               = (Ok tt, Desk.stuck_after 3)) by reflexivity.
  assert (H6 : input (Terminal := Desk.answering "n") "Press ENTER when logged in..."
                 (Desk.stuck_after 3) = (Ok "n", Desk.stuck_after 3)) by reflexivity.
  assert (H7 : locator_count 2%nat (door_button_text config0) (Desk.stuck_after 3)
               = (Ok 0, Desk.stuck_after 3)) by reflexivity.
  assert (H8 : input (Terminal := Desk.answering "n") "Save session anyway? (y/n): "
                 (Desk.stuck_after 3) = (Ok "n", Desk.stuck_after 3)) by reflexivity.
  assert (H10 : context_cookies 1%nat (Desk.stuck_after 3)
                = (Ok (Decimal.D7 Decimal.Nil), Desk.stuck_after 3)) by reflexivity.
  destruct (refusal_overridden_when_close_fails (term := Desk.answering "n") config0 w
              _ _ _ _ _ _ _ _ _ _ _ _ _ _ _ _ _ _
              H1 H2 H3 H4 H5 H6 H7 Hn H8 Ha Hc H10) as [_ H].
  rewrite H. apply lookup_insert_eq.
Defined.

(** The first start beside a cookies file that is not JSON. *)
Lemma start_survives_witness :
  let w := Desk.corrupt_cookies in
  json_load (Json := Decimal.uint) "{oops" = None
  /\ fst (get_door_opener config0 w) = Return 0%nat
  /\ heap (snd (get_door_opener config0 w)) = [mkDoorOpener (Some 0%nat) (Some 1%nat)].
Proof.
  intros w.
  split; [reflexivity |].
  assert (Hg : _door_opener w = None) by reflexivity.
  assert (H1 : sync_playwright_start (env w) = (Ok tt, Sim.healthy 0)) by reflexivity.
  assert (H2 : chromium_launch true (Sim.healthy 0)
               = (Ok 0%nat, snd (Sim.fresh Pw_launch (Sim.healthy 0)))) by reflexivity.
  assert (H3 : browser_new_context 0%nat (snd (Sim.fresh Pw_launch (Sim.healthy 0)))
               = (Ok 1%nat,
                  snd (Sim.fresh (Pw_new_context 0%nat)
                         (snd (Sim.fresh Pw_launch (Sim.healthy 0))))))
    by reflexivity.
  destruct (start_survives_bad_cookies config0 w _ _ _ _ _ Hg H1 H2 H3)
    as (w' & E & _ & Hh & _).
  rewrite E. split; [reflexivity | exact Hh].
Defined.

End InstancesMore.
